(** * The matching router of the introduction service

    A shallow embedding of [app/routers/matching.py]: the compatibility
    table, the four matching endpoints and the part of the SQLAlchemy
    session they go through, followed by the properties of the matching
    state machine and of the candidate selection.

    The tables are lists of rows in insertion order.  Columns hold
    integers and (non-null) strings, as the endpoints compare them. *)

From Stdlib Require Import ZArith String List.
From stdpp Require Import base decidable option numbers list strings sorting.

Open Scope string_scope.
Open Scope Z_scope.

(** ** Rows *)

(** Modelled from the spec: the [User] model of [app/models.py], with the
    four columns the router reads and writes. *)
Module User.
Record t : Type := mk {
  id : Z;
  mbti : string;
  gender : string;
  matching_status : string
}.

(** [user.matching_status = s] *)
Definition set_matching_status (s : string) (u : t) : t :=
  mk (id u) (mbti u) (gender u) s.

#[global] Instance User_eq_dec : EqDecision t.
Proof. solve_decision. Defined.
End User.

(** Modelled from the spec: the [Match] model of [app/models.py]. *)
Module Match.
Record t : Type := mk {
  id : Z;
  requester_id : Z;
  responder_id : Z;
  status : string;
  created_at : Z
}.

(** [match.status = s] *)
Definition set_status (s : string) (m : t) : t :=
  mk (id m) (requester_id m) (responder_id m) s (created_at m).

#[global] Instance Match_eq_dec : EqDecision t.
Proof. solve_decision. Defined.
End Match.

(** The request bodies of [app/schemas.py]. *)
Module MatchRequest.
Record t : Type := mk { partner_id : Z }.
End MatchRequest.

Module MatchResponse.
Record t : Type := mk { match_id : Z; accept : bool }.
End MatchResponse.

(** ** The store and the session *)

Record DB : Type := mkDB {
  users : list User.t;
  matches : list Match.t
}.

(** What an endpoint can raise: an [HTTPException], or SQLAlchemy's
    [MultipleResultsFound] out of [scalar_one_or_none]. *)
Inductive Exception : Type :=
  | HTTPException (status_code : Z) (detail : string)
  | MultipleResultsFound.

Inductive outcome (A : Type) : Type :=
  | Return (a : A)
  | Raise (e : Exception).
Arguments Return {A} a.
Arguments Raise {A} e.

(** An [AsyncSession]: the committed store and the session's own view of
    the rows, which attribute assignments and [db.add] change and which
    [db.commit()] writes back. *)
Record AsyncSession : Type := mkSession {
  store : DB;
  pending : DB
}.

Definition Session (A : Type) : Type := AsyncSession → outcome A * AsyncSession.

#[global] Instance Session_ret : MRet Session := λ A a s, (Return a, s).
#[global] Instance Session_bind : MBind Session := λ A B f m s,
  match m s with
  | (Return a, s') => f a s'
  | (Raise e, s') => (Raise e, s')
  end.

Definition raise {A : Type} (e : Exception) : Session A := λ s, (Raise e, s).

(** One request: a session is opened on the store, the endpoint runs, and
    what the store holds afterwards is what the session committed. *)
Definition run {A : Type} (endpoint : Session A) (db : DB) : outcome A * DB :=
  let '(r, s) := endpoint (mkSession db db) in (r, store s).

Definition find_User (pk : Z) (us : list User.t) : option User.t :=
  List.find (λ u, bool_decide (User.id u = pk)) us.

(** [await db.get(User, pk)] *)
Definition db_get_User (pk : Z) : Session (option User.t) := λ s,
  (Return (find_User pk (users (pending s))), s).

(** [await db.execute(select(Match).where(...))], rows in table order. *)
Definition select_Match (where_ : Match.t → Prop) `{∀ m, Decision (where_ m)}
  : Session (list Match.t) := λ s,
  (Return (filter where_ (matches (pending s))), s).

(** [await db.execute(select(User).where(...))] *)
Definition select_User (where_ : User.t → Prop) `{∀ u, Decision (where_ u)}
  : Session (list User.t) := λ s,
  (Return (filter where_ (users (pending s))), s).

(** Modelled from the spec: [Match.id] is a unique identifier assigned on
    creation; the store gives a new row the successor of the largest
    identifier in the table. *)
Definition next_Match_id (ms : list Match.t) : Z :=
  1 + foldr Z.max 0 (Match.id <$> ms).

(** [db.add(Match(requester_id=..., responder_id=..., status=...))]: the
    row goes to the end of the table, with its identifier and the time of
    creation [now] filled in by the store. *)
Definition db_add_Match (requester responder : Z) (st : string) (now : Z)
  : Session unit := λ s,
  let ms := matches (pending s) in
  let row := Match.mk (next_Match_id ms) requester responder st now in
  (Return (), mkSession (store s) (mkDB (users (pending s)) (ms ++ [row]))).

Definition update_User (pk : Z) (f : User.t → User.t) (us : list User.t)
  : list User.t :=
  (λ u, if bool_decide (User.id u = pk) then f u else u) <$> us.

Definition update_Match (pk : Z) (f : Match.t → Match.t) (ms : list Match.t)
  : list Match.t :=
  (λ m, if bool_decide (Match.id m = pk) then f m else m) <$> ms.

(** [user.matching_status = st] on a row the session holds: the row with
    the primary key of [user] changes. *)
Definition assign_matching_status (user : User.t) (st : string) : Session unit :=
  λ s,
  (Return (),
   mkSession (store s)
     (mkDB (update_User (User.id user) (User.set_matching_status st)
              (users (pending s)))
           (matches (pending s)))).

(** [match.status = st] *)
Definition assign_status (match_ : Match.t) (st : string) : Session unit :=
  λ s,
  (Return (),
   mkSession (store s)
     (mkDB (users (pending s))
           (update_Match (Match.id match_) (Match.set_status st)
              (matches (pending s))))).

(** [await db.commit()] *)
Definition db_commit : Session unit := λ s,
  (Return (), mkSession (pending s) (pending s)).

(** [result.scalar_one_or_none()] *)
Definition scalar_one_or_none {A : Type} (rows : list A) : Session (option A) :=
  match rows with
  | [] => mret None
  | [row] => mret (Some row)
  | _ :: _ :: _ => raise MultipleResultsFound
  end.

(** ** The compatibility table *)

Definition mbti_compatibility : list (string * list string) :=
  [ ("INFP", ["ENFJ"; "ENTJ"]);
    ("ENFP", ["INFJ"; "INTJ"]);
    ("INFJ", ["ENFP"; "ENTP"]);
    ("ENFJ", ["INFP"; "ISFP"]);
    ("INTJ", ["ENFP"; "ENTP"]);
    ("ENTJ", ["INFP"; "INTP"]);
    ("INTP", ["ENTJ"; "ISTJ"]);
    ("ENTP", ["INFJ"; "INTJ"]);
    ("ISFP", ["ESFJ"; "ESTJ"; "ESTP"]);
    ("ESFP", ["ISFJ"; "ISTJ"]);
    ("ISTP", ["ESFJ"; "ESTJ"]);
    ("ESTP", ["ISFJ"; "ISTJ"]);
    ("ISFJ", ["ESFP"; "ESTP"]);
    ("ESFJ", ["ISFP"; "ISTP"]);
    ("ISTJ", ["ESFP"; "ESTP"]);
    ("ESTJ", ["ISFP"; "ISTP"]) ].

(** [d.get(key, default)] on a dict literal (whose keys are distinct). *)
Definition dict_get {V : Type} (d : list (string * V)) (key : string) (default_ : V)
  : V :=
  match List.find (λ kv, bool_decide (kv.1 = key)) d with
  | Some kv => kv.2
  | None => default_
  end.

(** ** The endpoints *)

(** [POST /matching/request] *)
Definition send_matching_request (match_request : MatchRequest.t)
    (current_user : User.t) (now : Z) : Session string :=
  if bool_decide (User.matching_status current_user ∈ ["waiting"; "accept"]) then
    raise (HTTPException 400 "You already have a pending or accepted match")
  else
    partner ← db_get_User (MatchRequest.partner_id match_request);
    match partner with
    | None => raise (HTTPException 404 "Partner not found")
    | Some _ =>
        db_add_Match (User.id current_user)
          (MatchRequest.partner_id match_request) "waiting" now;;
        assign_matching_status current_user "waiting";;
        db_commit;;
        mret "Match request sent successfully"
    end.

(** [POST /matching/accept] *)
Definition handle_matching_request (match_response : MatchResponse.t)
    (current_user : User.t) : Session string :=
  rows ← select_Match (λ m,
            Match.requester_id m = MatchResponse.match_id match_response
            ∧ Match.responder_id m = User.id current_user);
  match_ ← scalar_one_or_none rows;
  match match_ with
  | None =>
      raise (HTTPException 404
               "Match request not found or you are not authorized to respond")
  | Some match_ =>
      (if MatchResponse.accept match_response then
         assign_status match_ "accept";;
         requester ← db_get_User (Match.requester_id match_);
         match requester with
         | Some requester => assign_matching_status requester "accept"
         | None => mret ()
         end;;
         assign_matching_status current_user "accept"
       else
         assign_status match_ "reject");;
      db_commit;;
      mret "Match request handled successfully"
  end.

(** The key of [ORDER BY CASE WHEN mbti IN (...) THEN 1 ELSE 2 END, random()]:
    the tier of the row and the number [random()] drew for it. *)
Definition tier (compatible_mbtis : list string) (u : User.t) : Z :=
  if bool_decide (User.mbti u ∈ compatible_mbtis) then 1 else 2.

Definition key_le (k1 k2 : Z * Z) : Prop :=
  k1.1 < k2.1 ∨ (k1.1 = k2.1 ∧ k1.2 ≤ k2.2).

#[global] Instance key_le_dec k1 k2 : Decision (key_le k1 k2).
Proof. unfold key_le. apply _. Defined.

(** Rows carrying their keys are compared by the keys. *)
Definition keyed_le (a b : User.t * (Z * Z)) : Prop := key_le a.2 b.2.

#[global] Instance keyed_le_dec a b : Decision (keyed_le a b).
Proof. unfold keyed_le. apply _. Defined.

(** The [ORDER BY] of the candidate query.  [random i] is what [random()]
    draws for the [i]-th row that passed the [WHERE] clause, any integer
    standing for the drawn number; the order of rows with equal keys, which
    SQL leaves open, is the one the merge sort gives. *)
Definition order_by_tier_random (compatible_mbtis : list string)
    (random : nat → Z) (rows : list User.t) : list User.t :=
  fst <$> merge_sort keyed_le
            (imap (λ i u, (u, (tier compatible_mbtis u, random i))) rows).

(** [ORDER BY created_at DESC]; the order of rows created at the same
    time, which SQL leaves open, is the one the merge sort gives. *)
Definition created_at_desc (a b : Match.t) : Prop :=
  Match.created_at b ≤ Match.created_at a.

#[global] Instance created_at_desc_dec a b : Decision (created_at_desc a b).
Proof. unfold created_at_desc. apply _. Defined.

Definition order_by_created_at_desc (rows : list Match.t) : list Match.t :=
  merge_sort created_at_desc rows.

(** [GET /matching/list] *)
Definition get_matching_list (current_user : User.t) (random : nat → Z)
  : Session (list User.t) :=
  let current_mbti := User.mbti current_user in
  let current_gender := User.gender current_user in
  let compatible_mbtis := dict_get mbti_compatibility current_mbti [] in
  rows ← select_User (λ u,
            User.matching_status u = "none"
            ∧ User.gender u ≠ current_gender
            ∧ User.id u ≠ User.id current_user);
  let users := take 4 (order_by_tier_random compatible_mbtis random rows) in
  match users with
  | [] => raise (HTTPException 404 "No matching users found")
  | _ :: _ => mret users
  end.

(** [GET /matching/dooyou] *)
Definition get_matching_partner (current_user : User.t) : Session User.t :=
  rows ← select_Match (λ m,
            (Match.requester_id m = User.id current_user
             ∨ Match.responder_id m = User.id current_user)
            ∧ Match.status m ∈ ["waiting"; "accept"; "reject"]);
  match head (order_by_created_at_desc rows) with
  | None => raise (HTTPException 404 "No matching partner found")
  | Some match_ =>
      let partner_id :=
        if bool_decide (Match.requester_id match_ = User.id current_user)
        then Match.responder_id match_
        else Match.requester_id match_ in
      partner ← db_get_User partner_id;
      match partner with
      | None => raise (HTTPException 404 "Matching partner not found")
      | Some partner => mret partner
      end
  end.

(** ** A concrete scenario

    User A (INFP, M) and user B (ENFJ, F), both with status [none], and a
    third user C; no match yet. *)
Definition user_A : User.t := User.mk 1 "INFP" "M" "none".
Definition user_B : User.t := User.mk 2 "ENFJ" "F" "none".
Definition user_C : User.t := User.mk 3 "ISTJ" "F" "none".
Definition db_start : DB := mkDB [user_A; user_B; user_C] [].

(** The store after A has asked B for a match. *)
Definition db_requested : DB :=
  mkDB [User.set_matching_status "waiting" user_A; user_B; user_C]
       [Match.mk 1 1 2 "waiting" 100].

(** The store after B has rejected A's request. *)
Definition db_rejected : DB :=
  mkDB (users db_requested) [Match.mk 1 1 2 "reject" 100].

(** A store in which A's request to B is recorded twice. *)
Definition db_doubled : DB :=
  mkDB (users db_requested)
       [Match.mk 1 1 2 "reject" 100; Match.mk 2 1 2 "waiting" 200].

(** Four women with status [none]: B and D are of types compatible with
    A's INFP, C and E are not. *)
Definition user_D : User.t := User.mk 4 "ENTJ" "F" "none".
Definition user_E : User.t := User.mk 5 "ESTP" "F" "none".
Definition db_five : DB := mkDB [user_A; user_C; user_B; user_E; user_D] [].

(** A store with two decided Matches of different pairs: A's request to B
    and C's request to A, both rejected. *)
Definition db_two_pairs : DB :=
  mkDB (users db_requested)
       [Match.mk 1 1 2 "reject" 100; Match.mk 2 3 1 "reject" 200].

(** The store after B has asked A for a match. *)
Definition db_B_waiting : DB :=
  mkDB [user_A; User.set_matching_status "waiting" user_B; user_C]
       [Match.mk 1 2 1 "waiting" 100].

(** ** The router

    The routes of [router] that work on the matching state, as requests
    with what the dependencies and the store supply to them, and the
    store the service holds after serving one and after serving a sequence
    of them, one session each ([get_db]).  The route [/matching/status]
    only reads, through [crud.get_matching_status], and is not among
    them. *)
Inductive Request : Type :=
  | GET_matching_list (current_user : User.t) (random : nat → Z)
  | GET_matching_dooyou (current_user : User.t)
  | POST_matching_request (match_request : MatchRequest.t)
      (current_user : User.t) (now : Z)
  | POST_matching_accept (match_response : MatchResponse.t)
      (current_user : User.t).

Definition serve (db : DB) (request : Request) : DB :=
  match request with
  | GET_matching_list current_user random =>
      (run (get_matching_list current_user random) db).2
  | GET_matching_dooyou current_user =>
      (run (get_matching_partner current_user) db).2
  | POST_matching_request match_request current_user now =>
      (run (send_matching_request match_request current_user now) db).2
  | POST_matching_accept match_response current_user =>
      (run (handle_matching_request match_response current_user) db).2
  end.

Definition serve_all (db : DB) (requests : list Request) : DB :=
  foldl serve db requests.

(** What never changes in a Match row. *)
Definition Match_identity (m : Match.t) : Z * Z * Z * Z :=
  (Match.id m, Match.requester_id m, Match.responder_id m, Match.created_at m).

(** A store whose matches were all created before [now]. *)
Definition created_before (now : Z) (db : DB) : Prop :=
  ∀ m, m ∈ matches db → Match.created_at m < now.

(** How a user row can differ from an earlier state of the same row: in
    its [matching_status] only, and then by having become [waiting] or
    [accept]. *)
Definition User_evolves (u u' : User.t) : Prop :=
  User.id u' = User.id u
  ∧ User.mbti u' = User.mbti u
  ∧ User.gender u' = User.gender u
  ∧ (User.matching_status u' = User.matching_status u
     ∨ User.matching_status u' = "waiting"
     ∨ User.matching_status u' = "accept").

(** The values the two status columns are meant to hold. *)
Definition status_domains (db : DB) : Prop :=
  Forall (λ u, User.matching_status u ∈ ["none"; "waiting"; "accept"]) (users db)
  ∧ Forall (λ m, Match.status m ∈ ["waiting"; "accept"; "reject"]) (matches db).

(** * Properties *)

(** ** The session primitives *)

Section rows.
Implicit Types (us : list User.t) (ms : list Match.t) (pk : Z).

Lemma find_User_Some pk us u :
  find_User pk us = Some u → User.id u = pk ∧ u ∈ us.
Proof.
  unfold find_User. intros Hfind. apply find_some in Hfind as [Hin Hpk].
  apply bool_decide_eq_true in Hpk. by rewrite list_elem_of_In.
Qed.

Lemma find_User_None pk us :
  find_User pk us = None ↔ ∀ u, u ∈ us → User.id u ≠ pk.
Proof.
  unfold find_User. split.
  - intros Hnone u Hu%list_elem_of_In.
    apply (find_none _ _ Hnone) in Hu. by apply bool_decide_eq_false in Hu.
  - intros Hall. induction us as [|u us IH]; [done|]. simpl.
    rewrite bool_decide_eq_false_2 by (apply Hall; left).
    apply IH. intros v Hv. apply Hall. by right.
Qed.

(** Assigning a column of the rows with key [k] does not move any row to
    another key, so a lookup sees the assignment exactly at [k]. *)
Lemma find_User_update pk k f us :
  (∀ u, User.id (f u) = User.id u) →
  find_User pk (update_User k f us)
  = (if bool_decide (pk = k) then f else id) <$> find_User pk us.
Proof.
  intros Hid. unfold find_User, update_User.
  induction us as [|u us IH]; [done|]. cbn [fmap list_fmap List.find].
  change (list_fmap User.t User.t ?g us) with (g <$> us).
  destruct (bool_decide (User.id u = k)) eqn:Hk.
  all: destruct (bool_decide (User.id u = pk)) eqn:Hu.
  all: rewrite ?Hid, ?Hu; try apply IH.
  all: apply bool_decide_eq_true in Hu.
  - apply bool_decide_eq_true in Hk.
    by rewrite bool_decide_eq_true_2 by congruence.
  - apply bool_decide_eq_false in Hk.
    by rewrite bool_decide_eq_false_2 by congruence.
Qed.

Lemma set_matching_status_id st u :
  User.id (User.set_matching_status st u) = User.id u.
Proof. done. Qed.

Lemma next_Match_id_fresh ms m : m ∈ ms → Match.id m < next_Match_id ms.
Proof.
  unfold next_Match_id. induction 1 as [m ms|m m' ms _ IH]; cbn; lia.
Qed.
End rows.

(** ** [requestMatch] *)

(** C1: a requester whose status is [waiting] or [accept] is refused with
    the 400 "already pending or accepted" error (the spec's Conflict), and
    a requester outside these two states naming a partner id that no user
    row has is refused with the 404 "Partner not found" error; in both
    cases the store is left as it was, with no Match added and no user
    changed. *)
Theorem send_matching_request_refused match_request current_user now db :
  (User.matching_status current_user = "waiting"
   ∨ User.matching_status current_user = "accept" →
   run (send_matching_request match_request current_user now) db
   = (Raise (HTTPException 400 "You already have a pending or accepted match"),
      db))
  ∧ (User.matching_status current_user ∉ ["waiting"; "accept"] →
     (∀ u, u ∈ users db → User.id u ≠ MatchRequest.partner_id match_request) →
     run (send_matching_request match_request current_user now) db
     = (Raise (HTTPException 404 "Partner not found"), db)).
Proof.
  unfold run, send_matching_request. split.
  - intros Hst. rewrite bool_decide_eq_true_2; [done|].
    rewrite !elem_of_cons. tauto.
  - intros Hst Hnone%find_User_None.
    rewrite bool_decide_eq_false_2 by done.
    unfold mbind, Session_bind, db_get_User. cbn. by rewrite Hnone.
Qed.

Lemma send_matching_request_refused_witness :
  run (send_matching_request (MatchRequest.mk 2)
         (User.set_matching_status "waiting" user_A) 100) db_start
  = (Raise (HTTPException 400 "You already have a pending or accepted match"),
     db_start)
  ∧ run (send_matching_request (MatchRequest.mk 7) user_A 100) db_start
    = (Raise (HTTPException 404 "Partner not found"), db_start).
Proof.
  split.
  - apply (send_matching_request_refused (MatchRequest.mk 2)
             (User.set_matching_status "waiting" user_A) 100 db_start).
    left. reflexivity.
  - apply (send_matching_request_refused (MatchRequest.mk 7) user_A 100 db_start).
    + rewrite !elem_of_cons, elem_of_nil. by intros [|[|]].
    + intros u Hu. vm_compute in Hu.
      repeat (apply elem_of_cons in Hu as [-> | Hu]; [done|]).
      by apply elem_of_nil in Hu.
Defined.

(** Row by row, an assignment of [matching_status] to the rows with key
    [k] changes that column of those rows and nothing else. *)
Lemma update_User_rows k st us :
  Forall2 (λ u u',
             User.id u' = User.id u ∧ User.mbti u' = User.mbti u
             ∧ User.gender u' = User.gender u
             ∧ (User.id u ≠ k → u' = u)
             ∧ (User.id u = k → User.matching_status u' = st))
          us (update_User k (User.set_matching_status st) us).
Proof.
  unfold update_User. induction us as [|u us IH]; cbn; constructor; [|done].
  case_bool_decide; cbn; split_and!; congruence.
Qed.

(** What a request that passes both checks commits. *)
Lemma send_matching_request_run match_request current_user now db partner :
  User.matching_status current_user ∉ ["waiting"; "accept"] →
  find_User (MatchRequest.partner_id match_request) (users db) = Some partner →
  run (send_matching_request match_request current_user now) db
  = (Return "Match request sent successfully",
     mkDB (update_User (User.id current_user)
             (User.set_matching_status "waiting") (users db))
          (matches db
           ++ [Match.mk (next_Match_id (matches db)) (User.id current_user)
                 (MatchRequest.partner_id match_request) "waiting" now])%list).
Proof.
  intros Hst Hpartner. unfold run, send_matching_request.
  rewrite bool_decide_eq_false_2 by done.
  unfold mbind, Session_bind, db_get_User. cbn. by rewrite Hpartner.
Qed.




(** ** [respondToMatch] *)

(** What [handle_matching_request] commits, by the number of rows its
    query finds. *)
Lemma handle_matching_request_run match_response current_user db :
  run (handle_matching_request match_response current_user) db
  = match filter (λ m, Match.requester_id m = MatchResponse.match_id match_response
                       ∧ Match.responder_id m = User.id current_user)
                 (matches db) with
    | [] =>
        (Raise (HTTPException 404
                  "Match request not found or you are not authorized to respond"),
         db)
    | [match_] =>
        (Return "Match request handled successfully",
         if MatchResponse.accept match_response then
           mkDB (update_User (User.id current_user)
                   (User.set_matching_status "accept")
                   (match find_User (Match.requester_id match_) (users db) with
                    | Some requester =>
                        update_User (User.id requester)
                          (User.set_matching_status "accept") (users db)
                    | None => users db
                    end))
                (update_Match (Match.id match_) (Match.set_status "accept")
                   (matches db))
         else
           mkDB (users db)
                (update_Match (Match.id match_) (Match.set_status "reject")
                   (matches db)))
    | _ :: _ :: _ => (Raise MultipleResultsFound, db)
    end.
Proof.
  unfold run, handle_matching_request, mbind, Session_bind, select_Match.
  cbn [pending store].
  destruct (filter _ (matches db)) as [|match_ [|? ?]]; try reflexivity.
  destruct match_response as [q [|]]; cbn; [|reflexivity].
  unfold find_User. by destruct (find _ (users db)).
Qed.

(** Row by row, an assignment of [status] to the rows with key [k]. *)
Lemma update_Match_rows k st ms :
  Forall2 (λ x x', if decide (Match.id x = k)
                   then x' = Match.set_status st x else x' = x)
          ms (update_Match k (Match.set_status st) ms).
Proof.
  unfold update_Match. induction ms as [|x ms IH]; cbn; constructor; [|done].
  case_bool_decide; by case_decide.
Qed.

Lemma update_Match_elem k st ms m :
  m ∈ ms → Match.id m = k → Match.set_status st m ∈ update_Match k (Match.set_status st) ms.
Proof.
  intros Hm Hk. unfold update_Match. apply list_elem_of_fmap.
  exists m. split; [|done]. by rewrite bool_decide_eq_true_2.
Qed.

(** Two rows at different places that pass a filter give it at least two
    results. *)
Lemma filter_two_rows {A} (P : A → Prop) `{∀ x, Decision (P x)} (l : list A)
    (i j : nat) x y :
  (i < j)%nat → l !! i = Some x → l !! j = Some y → P x → P y →
  ∃ a b rest, filter P l = a :: b :: rest.
Proof.
  revert i j. induction l as [|z l IH]; intros i j Hij Hi Hj Px Py; [done|].
  destruct j as [|j]; [lia|]. cbn in Hj. destruct i as [|i]; cbn in Hi.
  - injection Hi as ->. rewrite filter_cons_True by done.
    destruct (filter P l) as [|b rest] eqn:Hf; [|by eauto].
    assert (y ∈ filter P l) as Hy.
    { apply list_elem_of_filter. split; [done|]. by eapply list_elem_of_lookup_2. }
    rewrite Hf in Hy. by apply elem_of_nil in Hy.
  - destruct (IH i j) as (a & b & rest & Hf); [lia|done..|].
    rewrite filter_cons. rewrite Hf. case_decide; eauto.
Qed.

Lemma set_matching_status_twice st (o : option User.t) :
  User.set_matching_status st <$> (User.set_matching_status st <$> o)
  = User.set_matching_status st <$> o.
Proof. by destruct o. Qed.

(** Rows of a table with distinct ids are told apart by their id. *)
Lemma NoDup_Match_ids_inj ms m1 m2 :
  NoDup (Match.id <$> ms) → m1 ∈ ms → m2 ∈ ms → Match.id m1 = Match.id m2 →
  m1 = m2.
Proof.
  intros Hnodup (i & Hi)%list_elem_of_lookup (j & Hj)%list_elem_of_lookup Hid.
  assert (i = j) as ->.
  { eapply NoDup_lookup; [exact Hnodup| |].
    - rewrite list_lookup_fmap, Hi. reflexivity.
    - rewrite list_lookup_fmap, Hj. cbn. by rewrite Hid. }
  congruence.
Qed.

(** A lookup by primary key follows a row-by-row relation that keeps the
    ids. *)
Lemma find_User_rows (R : User.t → User.t → Prop) pk us us' u :
  Forall2 (λ u u', User.id u' = User.id u ∧ R u u') us us' →
  find_User pk us = Some u →
  ∃ u', find_User pk us' = Some u' ∧ R u u'.
Proof.
  unfold find_User. induction 1 as [|v v' us us' [Hid Hv] _ IH]; [done|]. cbn.
  rewrite Hid. case_bool_decide; [|exact IH].
  intros [= <-]. by exists v'.
Qed.

(** What the accepting branch does to the user table, row by row: the rows
    of the requester [Q] and of the responder get status [accept], and
    nothing else changes. *)
Lemma accept_users_rows R_id Q us :
  Forall2 (λ u u',
             User.id u' = User.id u
             ∧ (User.mbti u' = User.mbti u
                ∧ User.gender u' = User.gender u
                ∧ (User.id u = Q ∨ User.id u = R_id →
                   User.matching_status u' = "accept")
                ∧ (User.id u ≠ Q → User.id u ≠ R_id → u' = u)))
          us
          (update_User R_id (User.set_matching_status "accept")
             (match find_User Q us with
              | Some requester =>
                  update_User (User.id requester)
                    (User.set_matching_status "accept") us
              | None => us
              end)).
Proof.
  destruct (find_User Q us) as [requester|] eqn:Hreq.
  - apply find_User_Some in Hreq as [-> _].
    unfold update_User. rewrite <-list_fmap_compose.
    apply Forall2_fmap_r, Forall_Forall2_diag, Forall_forall. intros u _. cbn.
    destruct (decide (User.id u = Q)) as [HQ|HQ];
      destruct (decide (User.id u = R_id)) as [HR|HR];
      repeat first
        [ rewrite (bool_decide_eq_true_2 (User.id u = Q)) by done
        | rewrite (bool_decide_eq_false_2 (User.id u = Q)) by done
        | rewrite (bool_decide_eq_true_2 (User.id u = R_id)) by done
        | rewrite (bool_decide_eq_false_2 (User.id u = R_id)) by done
        | progress cbn [User.id User.set_matching_status User.mbti User.gender
                        User.matching_status] ];
      split_and!; try done; tauto.
  - unfold update_User.
    apply Forall2_fmap_r, Forall_Forall2_diag, Forall_forall. intros u Hu. cbn.
    assert (User.id u ≠ Q) as HQ by by eapply find_User_None.
    case_bool_decide; cbn; split_and!; try done; tauto.
Qed.

(** C3: when exactly one Match [m] has requester [Q] and responder [R],
    [R]'s accepting answer succeeds.  Afterwards this Match is stored with
    status [accept], its id, parties and creation time as before, and no
    Match row with another id has changed; the stored row of the requester
    [Q] and the stored row of [R] have [matching_status] equal to
    [accept], with their id, type and gender as before; and no row of
    another user has changed. *)
Theorem handle_matching_request_accept R Q db m :
  filter (λ x, Match.requester_id x = Q ∧ Match.responder_id x = User.id R)
         (matches db) = [m] →
  ∃ db',
    run (handle_matching_request (MatchResponse.mk Q true) R) db
    = (Return "Match request handled successfully", db')
    ∧ (∃ m', m' ∈ matches db'
             ∧ Match_identity m' = Match_identity m
             ∧ Match.status m' = "accept")
    ∧ Forall2 (λ x x', if decide (Match.id x = Match.id m)
                       then Match_identity x' = Match_identity x
                            ∧ Match.status x' = "accept"
                       else x' = x)
              (matches db) (matches db')
    ∧ (∀ u, find_User Q (users db) = Some u →
            ∃ u', find_User Q (users db') = Some u'
                  ∧ User.matching_status u' = "accept"
                  ∧ User.id u' = User.id u
                  ∧ User.mbti u' = User.mbti u
                  ∧ User.gender u' = User.gender u)
    ∧ (∀ u, find_User (User.id R) (users db) = Some u →
            ∃ u', find_User (User.id R) (users db') = Some u'
                  ∧ User.matching_status u' = "accept"
                  ∧ User.id u' = User.id u
                  ∧ User.mbti u' = User.mbti u
                  ∧ User.gender u' = User.gender u)
    ∧ (∀ u', u' ∈ users db' →
             User.id u' = Q ∨ User.id u' = User.id R →
             User.matching_status u' = "accept")
    ∧ Forall2 (λ u u', User.id u ≠ Q → User.id u ≠ User.id R → u' = u)
              (users db) (users db').
Proof.
  intros Hone. eexists. split.
  { rewrite handle_matching_request_run.
    cbn [MatchResponse.match_id MatchResponse.accept]. by rewrite Hone. }
  assert (m ∈ matches db ∧ Match.requester_id m = Q) as [Hm HQ].
  { assert (m ∈ [m]) as Hin by (apply elem_of_cons; by left).
    rewrite <-Hone in Hin. apply list_elem_of_filter in Hin. tauto. }
  cbn [users matches]. rewrite HQ.
  pose proof (accept_users_rows (User.id R) Q (users db)) as Hrows.
  split_and!.
  - exists (Match.set_status "accept" m). split; [by apply update_Match_elem|].
    by split.
  - eapply Forall2_impl; [apply update_Match_rows|].
    cbn. intros x x' Hx. case_decide; [|done]. by subst x'.
  - intros u Hu.
    destruct (find_User_rows _ _ _ _ _ Hrows Hu)
      as (u' & Hu' & Hmbti & Hgender & Hst & _).
    apply find_User_Some in Hu as [Hid _]. apply find_User_Some in Hu' as Hid'.
    destruct Hid' as [Hid' _]. exists u'. split_and!; [done| |congruence|done..].
    apply Hst. by left.
  - intros u Hu.
    destruct (find_User_rows _ _ _ _ _ Hrows Hu)
      as (u' & Hu' & Hmbti & Hgender & Hst & _).
    apply find_User_Some in Hu as [Hid _]. apply find_User_Some in Hu' as Hid'.
    destruct Hid' as [Hid' _]. exists u'. split_and!; [done| |congruence|done..].
    apply Hst. by right.
  - intros u' (i & Hi)%list_elem_of_lookup Hid.
    destruct (Forall2_lookup_r _ _ _ _ _ Hrows Hi)
      as (u & _ & Hidu & _ & _ & Hst & _).
    apply Hst. by rewrite <-Hidu.
  - eapply Forall2_impl; [exact Hrows|]. cbn. tauto.
Qed.

Lemma handle_matching_request_accept_witness :
  ∃ db',
    run (handle_matching_request (MatchResponse.mk 1 true) user_B) db_requested
    = (Return "Match request handled successfully", db')
    ∧ Match.mk 1 1 2 "accept" 100 ∈ matches db'
    ∧ find_User 1 (users db') = Some (User.mk 1 "INFP" "M" "accept")
    ∧ find_User 2 (users db') = Some (User.mk 2 "ENFJ" "F" "accept")
    ∧ find_User 3 (users db') = Some (User.mk 3 "ISTJ" "F" "none").
Proof.
  destruct (handle_matching_request_accept user_B 1 db_requested
              (Match.mk 1 1 2 "waiting" 100))
    as (db' & Hrun & (m' & Hm' & Hidentity & Hstatus) & _ & HA & HB & _ & Hothers).
  - reflexivity.
  - exists db'. split; [exact Hrun|].
    destruct (HA (User.set_matching_status "waiting" user_A) eq_refl)
      as (a & Ha & Hast & Haid & Hambti & Hagender).
    destruct (HB user_B eq_refl) as (b & Hb & Hbst & Hbid & Hbmbti & Hbgender).
    destruct m' as [i q r st t], a as [ai am ag ast], b as [bi bm bg bst].
    cbn in *. injection Hidentity as -> -> -> ->. subst.
    split_and!; [done..|].
    injection Hrun as <-. reflexivity.
Defined.



(** C5, as far as it fails: A asks B, B rejects, B then accepts.  The second
    answer finds the same single Match and overwrites its [reject] with
    [accept]. *)
Lemma handle_matching_request_overwrites_decision :
  ∃ db1 db2 db3,
    run (send_matching_request (MatchRequest.mk 2) user_A 100) db_start
    = (Return "Match request sent successfully", db1)
    ∧ run (handle_matching_request (MatchResponse.mk 1 false) user_B) db1
      = (Return "Match request handled successfully", db2)
    ∧ run (handle_matching_request (MatchResponse.mk 1 true) user_B) db2
      = (Return "Match request handled successfully", db3)
    ∧ matches db1 = [Match.mk 1 1 2 "waiting" 100]
    ∧ matches db2 = [Match.mk 1 1 2 "reject" 100]
    ∧ matches db3 = [Match.mk 1 1 2 "accept" 100].
Proof. eexists _, _, _. split_and!; reflexivity. Qed.

(** C5, amended: an answer, whatever it returns, leaves every Match row in
    place with its id, parties and creation time, and with a status that
    is either the one it had or the decision of this answer ([accept] or
    [reject]); so a Match that is [accept] or [reject] never goes back to
    [waiting].  With distinct Match ids, an answer changes no Match other
    than a request from the named requester to the answering user: a
    decided Match is never changed by an answer about another pair.  But
    when exactly one Match has the named requester and the answering user
    as responder, it is stored afterwards with the decision of this answer
    as its status, whatever its status was: the decision of a Match can
    still be replaced by a later answer of its responder. *)
Theorem handle_matching_request_decided_stays_decided match_response
    current_user db :
  Forall2 (λ x x',
             Match.id x' = Match.id x
             ∧ Match.requester_id x' = Match.requester_id x
             ∧ Match.responder_id x' = Match.responder_id x
             ∧ Match.created_at x' = Match.created_at x
             ∧ (Match.status x' = Match.status x
                ∨ Match.status x'
                  = (if MatchResponse.accept match_response
                     then "accept" else "reject"))
             ∧ (Match.status x ∈ ["accept"; "reject"] →
                Match.status x' ∈ ["accept"; "reject"]))
          (matches db)
          (matches (run (handle_matching_request match_response current_user)
                      db).2)
  ∧ (NoDup (Match.id <$> matches db) →
     Forall2 (λ x x',
                ¬ (Match.requester_id x = MatchResponse.match_id match_response
                   ∧ Match.responder_id x = User.id current_user) →
                x' = x)
             (matches db)
             (matches (run (handle_matching_request match_response current_user)
                         db).2))
  ∧ (∀ m,
       filter (λ x, Match.requester_id x = MatchResponse.match_id match_response
                    ∧ Match.responder_id x = User.id current_user)
              (matches db) = [m] →
       ∃ m',
         m' ∈ matches (run (handle_matching_request match_response current_user)
                         db).2
         ∧ Match_identity m' = Match_identity m
         ∧ Match.status m'
           = (if MatchResponse.accept match_response
              then "accept" else "reject")).
Proof.
  split_and!.
  - rewrite handle_matching_request_run.
    assert (∀ ms, Forall2 (λ x x' : Match.t,
               Match.id x' = Match.id x
               ∧ Match.requester_id x' = Match.requester_id x
               ∧ Match.responder_id x' = Match.responder_id x
               ∧ Match.created_at x' = Match.created_at x
               ∧ (Match.status x' = Match.status x
                  ∨ Match.status x'
                    = (if MatchResponse.accept match_response
                       then "accept" else "reject"))
               ∧ (Match.status x ∈ ["accept"; "reject"] →
                  Match.status x' ∈ ["accept"; "reject"])) ms ms) as Hsame.
    { intros ms. apply Forall_Forall2_diag, Forall_forall. intros x _.
      split_and!; auto. }
    destruct (filter _ (matches db)) as [|m [|? ?]]; cbn [snd matches];
      [apply Hsame| |apply Hsame].
    destruct (MatchResponse.accept match_response); cbn [matches].
    all: eapply Forall2_impl; [apply update_Match_rows|].
    all: cbn; intros x x' Hx; case_decide; subst x'; cbn.
    all: split_and!; auto.
    all: intros _; rewrite !elem_of_cons; auto.
  - intros Hnodup. rewrite handle_matching_request_run.
    assert (∀ ms : list Match.t,
              Forall2 (λ x x',
                ¬ (Match.requester_id x = MatchResponse.match_id match_response
                   ∧ Match.responder_id x = User.id current_user) →
                x' = x) ms ms) as Hsame.
    { intros ms. apply Forall_Forall2_diag, Forall_forall. auto. }
    destruct (filter _ (matches db)) as [|m [|? ?]] eqn:Hone; cbn [snd matches];
      [apply Hsame| |apply Hsame].
    assert (m ∈ matches db
            ∧ Match.requester_id m = MatchResponse.match_id match_response
            ∧ Match.responder_id m = User.id current_user) as (Hm & HQ & HR).
    { assert (m ∈ [m]) as Hin by (apply elem_of_cons; by left).
      rewrite <-Hone in Hin. apply list_elem_of_filter in Hin. tauto. }
    assert (∀ st, Forall2 (λ x x',
               ¬ (Match.requester_id x = MatchResponse.match_id match_response
                  ∧ Match.responder_id x = User.id current_user) → x' = x)
              (matches db) (update_Match (Match.id m) (Match.set_status st)
                              (matches db))) as Hframe.
    { intros st. unfold update_Match. apply Forall2_fmap_r.
      apply Forall_Forall2_diag, Forall_forall. intros x Hx Hnot.
      cbn. case_bool_decide as Hid; [|done]. destruct Hnot.
      by rewrite (NoDup_Match_ids_inj (matches db) x m Hnodup Hx Hm Hid). }
    destruct (MatchResponse.accept match_response); cbn [matches]; apply Hframe.
  - intros m Hone. rewrite handle_matching_request_run, Hone. cbn [snd].
    assert (m ∈ matches db) as Hm.
    { assert (m ∈ [m]) as Hin by (apply elem_of_cons; by left).
      rewrite <-Hone in Hin. apply list_elem_of_filter in Hin. tauto. }
    destruct (MatchResponse.accept match_response); cbn [matches].
    + exists (Match.set_status "accept" m).
      split; [by apply update_Match_elem|]. by split.
    + exists (Match.set_status "reject" m).
      split; [by apply update_Match_elem|]. by split.
Qed.

Lemma handle_matching_request_decided_stays_decided_witness :
  Match.mk 1 1 2 "accept" 100
    ∈ matches (run (handle_matching_request (MatchResponse.mk 1 true) user_B)
                 db_two_pairs).2
  ∧ matches (run (handle_matching_request (MatchResponse.mk 1 true) user_B)
               db_two_pairs).2 !! 1%nat
    = Some (Match.mk 2 3 1 "reject" 200).
Proof.
  destruct (handle_matching_request_decided_stays_decided
              (MatchResponse.mk 1 true) user_B db_two_pairs)
    as (_ & Hframe & Hdecision).
  split.
  - destruct (Hdecision (Match.mk 1 1 2 "reject" 100) eq_refl)
      as (m' & Hm' & Hidentity & Hstatus).
    destruct m' as [i q r st t]. cbn in Hidentity, Hstatus.
    injection Hidentity as -> -> -> ->. by subst st.
  - assert (NoDup (Match.id <$> matches db_two_pairs)) as Hnodup.
    { cbn. repeat (apply NoDup_cons; split;
                   [rewrite ?elem_of_cons, elem_of_nil; lia|]).
      apply NoDup_nil_2. }
    destruct (Forall2_lookup_l _ _ _ 1%nat (Match.mk 2 3 1 "reject" 200)
                (Hframe Hnodup) eq_refl) as (x' & Hx' & Hsame).
    rewrite Hx'. f_equal. apply Hsame. cbn. by intros [? _].
Defined.

(** C10: when two different rows of the Match table both have requester
    [Q] and responder [R], an answer of [R] about [Q], accepting or not,
    ends in [MultipleResultsFound], which is no [HTTPException] (so none of
    the 404 and 400 errors of the router), and the store is left as it
    was. *)
Theorem handle_matching_request_ambiguous R Q accept db i j m1 m2 :
  i ≠ j →
  matches db !! i = Some m1 →
  matches db !! j = Some m2 →
  Match.requester_id m1 = Q → Match.responder_id m1 = User.id R →
  Match.requester_id m2 = Q → Match.responder_id m2 = User.id R →
  run (handle_matching_request (MatchResponse.mk Q accept) R) db
  = (Raise MultipleResultsFound, db)
  ∧ ∀ status_code detail,
      MultipleResultsFound ≠ HTTPException status_code detail.
Proof.
  intros Hij Hi Hj Hq1 Hr1 Hq2 Hr2. split; [|done].
  rewrite handle_matching_request_run.
  cbn [MatchResponse.match_id MatchResponse.accept].
  destruct (Nat.lt_total i j) as [Hlt|[?|Hlt]]; [|done|].
  - destruct (filter_two_rows
                (λ m, Match.requester_id m = Q ∧ Match.responder_id m = User.id R)
                (matches db) i j m1 m2) as (a & b & rest & ->); auto.
  - destruct (filter_two_rows
                (λ m, Match.requester_id m = Q ∧ Match.responder_id m = User.id R)
                (matches db) j i m2 m1) as (a & b & rest & ->); auto.
Qed.

Lemma handle_matching_request_ambiguous_witness :
  run (handle_matching_request (MatchResponse.mk 1 true) user_B) db_doubled
  = (Raise MultipleResultsFound, db_doubled).
Proof.
  apply (handle_matching_request_ambiguous user_B 1 true db_doubled 0%nat 1%nat
           (Match.mk 1 1 2 "reject" 100) (Match.mk 2 1 2 "waiting" 200));
    [lia|reflexivity..].
Defined.

(** ** Ordering of query results *)

#[global] Instance keyed_le_trans : Transitive keyed_le.
Proof. intros [? [? ?]] [? [? ?]] [? [? ?]]. unfold keyed_le, key_le. cbn. lia. Qed.

#[global] Instance keyed_le_total : Total keyed_le.
Proof. intros [? [? ?]] [? [? ?]]. unfold keyed_le, key_le. cbn. lia. Qed.

#[global] Instance created_at_desc_trans : Transitive created_at_desc.
Proof. intros x y z. unfold created_at_desc. lia. Qed.

#[global] Instance created_at_desc_total : Total created_at_desc.
Proof. intros x y. unfold created_at_desc. lia. Qed.


Section candidates.
Context (compatible_mbtis : list string) (random : nat → Z).
Implicit Types (rows : list User.t).


(** Ordering the rows loses none and adds none. *)
Lemma order_by_tier_random_Permutation rows :
  order_by_tier_random compatible_mbtis random rows ≡ₚ rows.
Proof.
  unfold order_by_tier_random. rewrite merge_sort_Permutation, fmap_imap.
  rewrite (imap_ext _ (λ _ u, u)) by done.
  by rewrite (imap_const id), list_fmap_id.
Qed.


End candidates.

(** The newest of the selected matches comes first. *)
Lemma order_by_created_at_desc_head rows :
  match head (order_by_created_at_desc rows) with
  | None => rows = []
  | Some m => m ∈ rows
              ∧ ∀ m', m' ∈ rows → Match.created_at m' ≤ Match.created_at m
  end.
Proof.
  unfold order_by_created_at_desc.
  pose proof (merge_sort_Permutation created_at_desc rows) as Hperm.
  pose proof (StronglySorted_merge_sort created_at_desc rows) as Hsorted.
  destruct (merge_sort created_at_desc rows) as [|m sorted]; cbn.
  - by apply Permutation_nil_l in Hperm.
  - split; [rewrite <-Hperm; by left|].
    intros m'. rewrite <-Hperm. intros [->|Hm']%elem_of_cons; [done|].
    apply StronglySorted_inv in Hsorted as [_ Hall].
    by eapply Forall_forall in Hall.
Qed.

(** ** [listCandidates] *)

(** What [get_matching_list] returns: the first four of the ordered
    eligible rows, unless there is none. *)
Lemma get_matching_list_run current_user random db :
  run (get_matching_list current_user random) db
  = match take 4
            (order_by_tier_random
               (dict_get mbti_compatibility (User.mbti current_user) [])
               random
               (filter (λ u, User.matching_status u = "none"
                             ∧ User.gender u ≠ User.gender current_user
                             ∧ User.id u ≠ User.id current_user)
                       (users db))) with
    | [] => (Raise (HTTPException 404 "No matching users found"), db)
    | u :: result => (Return (u :: result), db)
    end.
Proof.
  unfold run, get_matching_list, mbind, Session_bind, select_User.
  cbn [pending store]. by destruct (take 4 _).
Qed.

Lemma get_matching_list_Return current_user random db result db' :
  run (get_matching_list current_user random) db = (Return result, db') →
  db' = db
  ∧ result ≠ []
  ∧ result
    = take 4
        (order_by_tier_random
           (dict_get mbti_compatibility (User.mbti current_user) [])
           random
           (filter (λ u, User.matching_status u = "none"
                         ∧ User.gender u ≠ User.gender current_user
                         ∧ User.id u ≠ User.id current_user)
                   (users db))).
Proof.
  rewrite get_matching_list_run.
  destruct (take 4 _) as [|u l]; [done|]. by intros [= <- <-].
Qed.

(** C6: every user in a returned shortlist is a stored user other than
    the requesting one (a different id), of a gender different from the
    requesting user's, and with [matching_status] equal to [none]. *)
Theorem get_matching_list_eligible current_user random db result db' :
  run (get_matching_list current_user random) db = (Return result, db') →
  ∀ u, u ∈ result →
       u ∈ users db
       ∧ User.id u ≠ User.id current_user
       ∧ User.gender u ≠ User.gender current_user
       ∧ User.matching_status u = "none".
Proof.
  intros (_ & _ & ->)%get_matching_list_Return u Hu.
  apply elem_of_take in Hu as (i & Hi%list_elem_of_lookup_2 & _).
  rewrite order_by_tier_random_Permutation in Hi.
  apply list_elem_of_filter in Hi. tauto.
Qed.

Lemma get_matching_list_eligible_witness :
  run (get_matching_list user_A (λ i, Z.of_nat i)) db_start
  = (Return [user_B; user_C], db_start)
  ∧ User.id user_B ≠ User.id user_A
  ∧ User.gender user_B ≠ User.gender user_A
  ∧ User.matching_status user_B = "none".
Proof.
  split; [reflexivity|].
  apply (get_matching_list_eligible user_A (λ i, Z.of_nat i) db_start
           [user_B; user_C] db_start eq_refl user_B).
  apply elem_of_cons. by left.
Defined.



(** C8: when no stored user passes the three filtering conditions the
    call ends in the 404 "No matching users found" error (the spec's
    NotFound) instead of returning an empty sequence; a sequence that is
    returned is never empty, and one is returned as soon as some stored
    user passes the conditions. *)
Theorem get_matching_list_empty_is_not_found current_user random db :
  ((∀ u, u ∈ users db →
         ¬ (User.matching_status u = "none"
            ∧ User.gender u ≠ User.gender current_user
            ∧ User.id u ≠ User.id current_user)) →
   run (get_matching_list current_user random) db
   = (Raise (HTTPException 404 "No matching users found"), db))
  ∧ (∀ result db',
       run (get_matching_list current_user random) db = (Return result, db') →
       result ≠ [])
  ∧ ((∃ u, u ∈ users db
           ∧ User.matching_status u = "none"
           ∧ User.gender u ≠ User.gender current_user
           ∧ User.id u ≠ User.id current_user) →
     ∃ result,
       run (get_matching_list current_user random) db = (Return result, db)
       ∧ result ≠ []).
Proof.
  split_and!.
  - intros Hnone. rewrite get_matching_list_run.
    rewrite (elem_of_nil_inv (filter _ (users db))); [done|].
    intros u [Hu Hin]%list_elem_of_filter. by apply (Hnone u).
  - by intros result db' (_ & Hne & _)%get_matching_list_Return.
  - intros (u & Hin & Hu). rewrite get_matching_list_run.
    destruct (take 4 _) as [|v l] eqn:Htake; [|by eauto].
    apply (f_equal length) in Htake. rewrite length_take in Htake.
    rewrite order_by_tier_random_Permutation in Htake.
    assert (u ∈ filter (λ u, User.matching_status u = "none"
                             ∧ User.gender u ≠ User.gender current_user
                             ∧ User.id u ≠ User.id current_user) (users db))
      as Hfu by by apply list_elem_of_filter.
    destruct (filter _ (users db)); [by apply elem_of_nil in Hfu|].
    cbn in Htake. lia.
Qed.

Lemma get_matching_list_empty_is_not_found_witness :
  run (get_matching_list user_C (λ _, 0)) db_requested
  = (Raise (HTTPException 404 "No matching users found"), db_requested)
  ∧ ∃ result,
      run (get_matching_list user_A (λ _, 0)) db_start = (Return result, db_start)
      ∧ result ≠ [].
Proof.
  split.
  - apply (get_matching_list_empty_is_not_found user_C (λ _, 0) db_requested).
    intros u Hu. unfold db_requested, users in Hu.
    repeat (apply elem_of_cons in Hu as [-> | Hu]; [by intros (? & ? & ?)|]).
    by apply elem_of_nil in Hu.
  - apply (get_matching_list_empty_is_not_found user_A (λ _, 0) db_start).
    exists user_B. split_and!; [|done..]. apply elem_of_cons. right.
    apply elem_of_cons. by left.
Defined.

(** ** [getActivePartner] *)

Lemma get_matching_partner_run current_user db :
  run (get_matching_partner current_user) db
  = match head (order_by_created_at_desc
                  (filter (λ m, (Match.requester_id m = User.id current_user
                                 ∨ Match.responder_id m = User.id current_user)
                                ∧ Match.status m ∈ ["waiting"; "accept"; "reject"])
                          (matches db))) with
    | None => (Raise (HTTPException 404 "No matching partner found"), db)
    | Some match_ =>
        match find_User
                (if bool_decide (Match.requester_id match_ = User.id current_user)
                 then Match.responder_id match_ else Match.requester_id match_)
                (users db) with
        | None => (Raise (HTTPException 404 "Matching partner not found"), db)
        | Some partner => (Return partner, db)
        end
    end.
Proof.
  unfold run, get_matching_partner, mbind, Session_bind, select_Match, db_get_User.
  cbn [pending store]. destruct (head _) as [match_|]; [|done].
  cbn [pending]. by destruct (find_User _ (users db)).
Qed.

(** C9: among the Matches in which the user is requester or responder and
    whose status is [waiting], [accept] or [reject], terminal or not, the
    call takes one with the greatest [created_at] and looks for the other
    party (the responder when the user is the requester, else the
    requester).  It returns a stored user row whose id is the other
    party's; it ends in the 404 "Matching partner not found" error exactly
    when no stored user has that id.  When there is no such Match it ends
    in the 404 "No matching partner found" error.  The store is not
    changed. *)
Theorem get_matching_partner_newest current_user db :
  ((∀ m, m ∈ matches db →
         ¬ ((Match.requester_id m = User.id current_user
             ∨ Match.responder_id m = User.id current_user)
            ∧ Match.status m ∈ ["waiting"; "accept"; "reject"])) →
   run (get_matching_partner current_user) db
   = (Raise (HTTPException 404 "No matching partner found"), db))
  ∧ ((∃ m, m ∈ matches db
           ∧ (Match.requester_id m = User.id current_user
              ∨ Match.responder_id m = User.id current_user)
           ∧ Match.status m ∈ ["waiting"; "accept"; "reject"]) →
     ∃ match_ partner_id,
       match_ ∈ matches db
       ∧ Match.status match_ ∈ ["waiting"; "accept"; "reject"]
       ∧ (∀ m, m ∈ matches db →
               Match.requester_id m = User.id current_user
               ∨ Match.responder_id m = User.id current_user →
               Match.status m ∈ ["waiting"; "accept"; "reject"] →
               Match.created_at m ≤ Match.created_at match_)
       ∧ (Match.requester_id match_ = User.id current_user
          ∧ partner_id = Match.responder_id match_
          ∨ Match.requester_id match_ ≠ User.id current_user
            ∧ Match.responder_id match_ = User.id current_user
            ∧ partner_id = Match.requester_id match_)
       ∧ ((∃ partner,
             partner ∈ users db
             ∧ User.id partner = partner_id
             ∧ run (get_matching_partner current_user) db
               = (Return partner, db))
          ∨ (∀ u, u ∈ users db → User.id u ≠ partner_id)
            ∧ run (get_matching_partner current_user) db
              = (Raise (HTTPException 404 "Matching partner not found"), db))).
Proof.
  rewrite get_matching_partner_run.
  pose proof (order_by_created_at_desc_head
                (filter (λ m, (Match.requester_id m = User.id current_user
                               ∨ Match.responder_id m = User.id current_user)
                              ∧ Match.status m ∈ ["waiting"; "accept"; "reject"])
                        (matches db))) as Hhead.
  destruct (head _) as [match_|]; split.
  - intros Hnone. destruct Hhead as [[Hparty Hin]%list_elem_of_filter _].
    by destruct (Hnone match_).
  - intros _. destruct Hhead as [[[Hparty Hst] Hin]%list_elem_of_filter Hmax].
    exists match_, (if bool_decide (Match.requester_id match_ = User.id current_user)
                    then Match.responder_id match_ else Match.requester_id match_).
    split_and!; [done|done| | |].
    + intros m Hm Hp Hs. apply Hmax. by apply list_elem_of_filter.
    + case_bool_decide; [by left|right]. by destruct Hparty.
    + destruct (find_User _ (users db)) as [partner|] eqn:Hpartner.
      * left. apply find_User_Some in Hpartner as [Hid Hin'].
        exists partner. by split_and!.
      * right. split; [|done]. by apply find_User_None.
  - done.
  - intros (m & Hin & Hparty & Hst).
    assert (m ∈ filter (λ m, (Match.requester_id m = User.id current_user
                              ∨ Match.responder_id m = User.id current_user)
                             ∧ Match.status m ∈ ["waiting"; "accept"; "reject"])
                       (matches db)) as Hm by by apply list_elem_of_filter.
    rewrite Hhead in Hm. by apply elem_of_nil in Hm.
Qed.

Lemma get_matching_partner_newest_witness :
  run (get_matching_partner user_C) db_start
  = (Raise (HTTPException 404 "No matching partner found"), db_start)
  ∧ run (get_matching_partner user_A) db_doubled = (Return user_B, db_doubled)
  ∧ ∃ match_,
      match_ ∈ matches db_doubled
      ∧ ∀ m, m ∈ matches db_doubled →
             Match.created_at m ≤ Match.created_at match_.
Proof.
  assert (∀ m, m ∈ matches db_doubled →
               (Match.requester_id m = 1 ∧ Match.responder_id m = 2)
               ∧ Match.status m ∈ ["waiting"; "accept"; "reject"]) as Hall.
  { intros m Hm. unfold db_doubled, matches in Hm.
    apply elem_of_cons in Hm as [-> | Hm];
      [|apply elem_of_cons in Hm as [-> | Hm]; [|by apply elem_of_nil in Hm]].
    all: cbn; rewrite !elem_of_cons; auto. }
  split.
  { apply (get_matching_partner_newest user_C db_start).
    intros m Hm. by apply elem_of_nil in Hm. }
  destruct (proj2 (get_matching_partner_newest user_A db_doubled))
    as (match_ & partner_id & Hin & _ & Hmax & Hparty & Hresult).
  { exists (Match.mk 1 1 2 "reject" 100). split.
    - unfold db_doubled, matches. apply elem_of_cons. by left.
    - destruct (Hall (Match.mk 1 1 2 "reject" 100)) as [[? ?] ?];
        [unfold db_doubled, matches; apply elem_of_cons; by left|].
      split; [by left|done]. }
  destruct (Hall match_ Hin) as [[Hreq Hresp] _].
  assert (partner_id = 2) as ->.
  { destruct Hparty as [[_ ->]|(Hne & _ & _)]; [done|]. by destruct Hne. }
  split.
  - destruct Hresult as [(partner & Hpartner & Hid & Hrun)|[Hnobody _]].
    + rewrite Hrun. do 2 f_equal.
      unfold db_doubled, db_requested, users in Hpartner.
      repeat (apply elem_of_cons in Hpartner as [-> | Hpartner];
              [by (done || (cbn in Hid; lia))|]).
      by apply elem_of_nil in Hpartner.
    + destruct (Hnobody user_B); [|done].
      unfold db_doubled, db_requested, users. rewrite !elem_of_cons. auto.
  - exists match_. split; [done|].
    intros m Hm. destruct (Hall m Hm) as [[? ?] ?].
    apply Hmax; [done|by left|done].
Defined.

(** * Further properties of the router *)

(** ** What a request commits *)

(** A request for a match either commits nothing or commits the new row
    and the requester's status. *)
Lemma send_matching_request_commits match_request current_user now db :
  (run (send_matching_request match_request current_user now) db).2 = db
  ∨ (run (send_matching_request match_request current_user now) db).2
    = mkDB (update_User (User.id current_user)
              (User.set_matching_status "waiting") (users db))
           (matches db
            ++ [Match.mk (next_Match_id (matches db)) (User.id current_user)
                  (MatchRequest.partner_id match_request) "waiting" now])%list.
Proof.
  destruct (decide (User.matching_status current_user ∈ ["waiting"; "accept"]))
    as [Hst|Hst].
  - left. unfold run, send_matching_request. by rewrite bool_decide_eq_true_2.
  - destruct (find_User (MatchRequest.partner_id match_request) (users db))
      as [partner|] eqn:Hpartner.
    + right. by erewrite send_matching_request_run.
    + left. unfold run, send_matching_request.
      rewrite bool_decide_eq_false_2 by done.
      unfold mbind, Session_bind, db_get_User. cbn. by rewrite Hpartner.
Qed.

(** An answer either commits nothing or commits a new status of the rows
    with one Match id, together with, when it accepts, the status [accept]
    of the rows of at most two user ids. *)
Lemma handle_matching_request_commits match_response current_user db :
  (run (handle_matching_request match_response current_user) db).2 = db
  ∨ ∃ k st us,
      (run (handle_matching_request match_response current_user) db).2
      = mkDB us (update_Match k (Match.set_status st) (matches db))
      ∧ st ∈ ["accept"; "reject"]
      ∧ (us = users db
         ∨ us = update_User (User.id current_user)
                  (User.set_matching_status "accept") (users db)
         ∨ ∃ k', us = update_User (User.id current_user)
                        (User.set_matching_status "accept")
                        (update_User k' (User.set_matching_status "accept")
                           (users db))).
Proof.
  rewrite handle_matching_request_run.
  destruct (filter _ (matches db)) as [|m [|? ?]]; [by left| |by left].
  right. cbn [snd]. destruct (MatchResponse.accept match_response).
  - destruct (find_User (Match.requester_id m) (users db)) as [requester|].
    + eexists _, "accept", _. split; [done|]. rewrite !elem_of_cons. eauto 6.
    + eexists _, "accept", _. split; [done|]. rewrite !elem_of_cons. eauto 6.
  - eexists _, "reject", _. split; [done|]. rewrite !elem_of_cons. eauto 6.
Qed.

Lemma get_matching_list_commits current_user random db :
  (run (get_matching_list current_user random) db).2 = db.
Proof. rewrite get_matching_list_run. by destruct (take 4 _). Qed.

Lemma get_matching_partner_commits current_user db :
  (run (get_matching_partner current_user) db).2 = db.
Proof.
  rewrite get_matching_partner_run. destruct (head _) as [m|]; [|done].
  by destruct (find_User _ (users db)).
Qed.

Lemma update_Match_identity k st ms :
  Match_identity <$> update_Match k (Match.set_status st) ms
  = Match_identity <$> ms.
Proof.
  unfold update_Match. rewrite <-list_fmap_compose. apply list_fmap_ext.
  intros i m _. cbn. by case_bool_decide.
Qed.

Lemma update_Match_ids k st ms :
  Match.id <$> update_Match k (Match.set_status st) ms = Match.id <$> ms.
Proof.
  unfold update_Match. rewrite <-list_fmap_compose. apply list_fmap_ext.
  intros i m _. cbn. by case_bool_decide.
Qed.

(** A property of the store that every request keeps holds after any
    sequence of requests. *)
Lemma serve_all_invariant (I : DB → Prop) :
  (∀ db request, I db → I (serve db request)) →
  ∀ requests db, I db → I (serve_all db requests).
Proof.
  intros Hstep requests. unfold serve_all.
  induction requests as [|r rs IH]; intros db Hdb; [done|].
  cbn. apply IH. by apply Hstep.
Qed.

(** What one request can do to the store, for all four routes. *)
Lemma serve_commits db request :
  serve db request = db
  ∨ (∃ k m,
       serve db request
       = mkDB (update_User k (User.set_matching_status "waiting") (users db))
              (matches db ++ [m])%list
       ∧ Match.id m = next_Match_id (matches db)
       ∧ Match.status m = "waiting")
  ∨ (∃ k st us,
       serve db request = mkDB us (update_Match k (Match.set_status st) (matches db))
       ∧ st ∈ ["accept"; "reject"]
       ∧ (us = users db
          ∨ (∃ k1, us = update_User k1 (User.set_matching_status "accept") (users db))
          ∨ ∃ k1 k2, us = update_User k1 (User.set_matching_status "accept")
                            (update_User k2 (User.set_matching_status "accept")
                               (users db)))).
Proof.
  destruct request as [cu random|cu|mr cu now|mr cu]; cbn [serve].
  - left. apply get_matching_list_commits.
  - left. apply get_matching_partner_commits.
  - destruct (send_matching_request_commits mr cu now db) as [->| ->];
      [by left|right; left]. by eexists _, _.
  - destruct (handle_matching_request_commits mr cu db)
      as [->|(k & st & us & -> & Hst & Hus)]; [by left|right; right].
    exists k, st, us. split_and!; [done..|].
    destruct Hus as [->|[->|[k' ->]]]; eauto.
Qed.

(** ** Invariants of the store *)

(** X1: no sequence of requests deletes a Match or changes the id, the
    requester, the responder or the creation time of one: the rows the
    table had are still its first rows, in the same order, up to their
    status. *)
Theorem serve_all_keeps_matches db requests :
  (Match_identity <$> matches db)
    `prefix_of` (Match_identity <$> matches (serve_all db requests)).
Proof.
  revert db. unfold serve_all.
  induction requests as [|r rs IH]; intros db; [done|].
  cbn. etrans; [|apply IH].
  destruct (serve_commits db r)
    as [->|[(k & m & -> & _)|(k & st & us & -> & _)]]; cbn [matches].
  - done.
  - rewrite fmap_app. by apply prefix_app_r.
  - by rewrite update_Match_identity.
Qed.

(** X2: when the ids of the Match table are distinct they stay distinct
    through any sequence of requests. *)
Theorem serve_all_keeps_Match_ids_distinct db requests :
  NoDup (Match.id <$> matches db) →
  NoDup (Match.id <$> matches (serve_all db requests)).
Proof.
  revert db. apply (serve_all_invariant (λ db, NoDup (Match.id <$> matches db))).
  intros db r Hdb.
  destruct (serve_commits db r)
    as [->|[(k & m & -> & Hid & _)|(k & st & us & -> & _)]]; cbn [matches].
  - done.
  - rewrite fmap_app. apply NoDup_app. split_and!; [done| |apply NoDup_singleton].
    intros x (m0 & -> & Hm0)%list_elem_of_fmap Hx.
    apply list_elem_of_singleton in Hx. rewrite Hid in Hx.
    apply next_Match_id_fresh in Hm0. lia.
  - by rewrite update_Match_ids.
Qed.

Lemma serve_all_keeps_Match_ids_distinct_witness :
  NoDup (Match.id <$> matches
           (serve_all db_start
              [POST_matching_request (MatchRequest.mk 2) user_A 100;
               POST_matching_request (MatchRequest.mk 1) user_C 200;
               POST_matching_accept (MatchResponse.mk 1 true) user_B])).
Proof.
  apply (serve_all_keeps_Match_ids_distinct db_start). cbn. apply NoDup_nil_2.
Defined.

#[global] Instance User_evolves_refl : Reflexive User_evolves.
Proof. intros u. unfold User_evolves. auto. Qed.

#[global] Instance User_evolves_trans : Transitive User_evolves.
Proof.
  intros u1 u2 u3 (? & ? & ? & H12) (? & ? & ? & H23). unfold User_evolves.
  split_and!; [congruence..|]. destruct H23 as [->|H23]; auto.
Qed.

Lemma update_User_evolves k st us :
  st ∈ ["waiting"; "accept"] →
  Forall2 User_evolves us (update_User k (User.set_matching_status st) us).
Proof.
  rewrite !elem_of_cons, elem_of_nil. intros Hst.
  eapply Forall2_impl; [apply update_User_rows|].
  cbn. intros u u' (? & ? & ? & Hother & Hk). unfold User_evolves.
  split_and!; [done..|].
  destruct (decide (User.id u = k)) as [Hu|Hu].
  - rewrite (Hk Hu). tauto.
  - rewrite (Hother Hu). auto.
Qed.

(** Row by row, the user table after a sequence of requests evolves from
    the one before. *)
Lemma serve_all_evolves db requests :
  Forall2 User_evolves (users db) (users (serve_all db requests)).
Proof.
  revert db. unfold serve_all.
  induction requests as [|r rs IH]; intros db; [done|].
  cbn. etrans; [|apply IH].
  assert ("waiting" ∈ ["waiting"; "accept"]
          ∧ "accept" ∈ ["waiting"; "accept"]) as [Hw Ha].
  { rewrite !elem_of_cons. auto. }
  destruct (serve_commits db r)
    as [->|[(k & m & -> & _)|(k & st & us & -> & _ & Hus)]]; cbn [users].
  - done.
  - by apply update_User_evolves.
  - destruct Hus as [->|[[k1 ->]|(k1 & k2 & ->)]].
    + done.
    + by apply update_User_evolves.
    + etrans; by apply update_User_evolves.
Qed.

(** X3: through any sequence of requests the user table keeps its rows
    and their order, and every row keeps its id, type and gender; its
    [matching_status] is the one it had or has become [waiting] or
    [accept].  No request creates or deletes a user, and none puts a
    status back to [none]. *)
Theorem serve_all_users_evolve db requests :
  Forall2 User_evolves (users db) (users (serve_all db requests))
  ∧ Forall2 (λ u u', User.matching_status u' = "none" →
                     User.matching_status u = "none")
            (users db) (users (serve_all db requests)).
Proof.
  split; [apply serve_all_evolves|].
  eapply Forall2_impl; [apply serve_all_evolves|].
  intros u u' (_ & _ & _ & [<-|[->| ->]]); done.
Qed.

(** X4: when the user statuses are among [none], [waiting], [accept] and
    the Match statuses among [waiting], [accept], [reject], they still are
    after any sequence of requests. *)
Theorem serve_all_keeps_status_domains db requests :
  status_domains db → status_domains (serve_all db requests).
Proof.
  revert db. apply serve_all_invariant. intros db r [Hu Hm].
  assert (∀ k st us,
            st ∈ ["waiting"; "accept"] →
            Forall (λ u, User.matching_status u ∈ ["none"; "waiting"; "accept"]) us →
            Forall (λ u, User.matching_status u ∈ ["none"; "waiting"; "accept"])
                   (update_User k (User.set_matching_status st) us)) as Husers.
  { intros k st us Hst Hus. unfold update_User. apply Forall_fmap.
    eapply Forall_impl; [exact Hus|]. cbn. intros u Hin.
    case_bool_decide; [cbn|done]. by apply elem_of_cons; right. }
  assert (∀ k st ms,
            st ∈ ["accept"; "reject"] →
            Forall (λ m, Match.status m ∈ ["waiting"; "accept"; "reject"]) ms →
            Forall (λ m, Match.status m ∈ ["waiting"; "accept"; "reject"])
                   (update_Match k (Match.set_status st) ms)) as Hmatches.
  { intros k st ms Hst Hms. unfold update_Match. apply Forall_fmap.
    eapply Forall_impl; [exact Hms|]. cbn. intros m Hin.
    case_bool_decide; [cbn|done]. by apply elem_of_cons; right. }
  assert ("waiting" ∈ ["waiting"; "accept"]
          ∧ "accept" ∈ ["waiting"; "accept"]) as [Hw Ha].
  { rewrite !elem_of_cons. auto. }
  destruct (serve_commits db r)
    as [->|[(k & m & -> & _ & Hst)|(k & st & us & -> & Hst & Hus)]].
  - done.
  - split; cbn [users matches]; [by apply Husers|].
    apply Forall_app. split; [done|]. apply Forall_singleton.
    rewrite Hst. apply elem_of_cons. by left.
  - split; cbn [users matches]; [|by apply Hmatches].
    destruct Hus as [->|[[k1 ->]|(k1 & k2 & ->)]]; auto.
Qed.

Lemma serve_all_keeps_status_domains_witness :
  status_domains
    (serve_all db_start
       [POST_matching_request (MatchRequest.mk 2) user_A 100;
        POST_matching_accept (MatchResponse.mk 1 false) user_B;
        POST_matching_request (MatchRequest.mk 3) user_B 200]).
Proof.
  apply (serve_all_keeps_status_domains db_start). split; cbn.
  - repeat (apply Forall_cons; split; [rewrite !elem_of_cons; auto|]).
    apply Forall_nil_2.
  - apply Forall_nil_2.
Defined.

Lemma serve_all_users_evolve_witness :
  Forall2 User_evolves (users db_start)
    (users (serve_all db_start
              [POST_matching_request (MatchRequest.mk 2) user_A 100;
               POST_matching_accept (MatchResponse.mk 1 true) user_B])).
Proof.
  exact (proj1 (serve_all_users_evolve db_start
                  [POST_matching_request (MatchRequest.mk 2) user_A 100;
                   POST_matching_accept (MatchResponse.mk 1 true) user_B])).
Defined.

(** ** More on [respondToMatch] *)

(** X5: a user can only answer a request that was sent to them: when no
    Match has the given requester id together with the answering user as
    responder, the answer ends in the 404 "Match request not found or you
    are not authorized to respond" error and the store is left as it
    was. *)
Theorem handle_matching_request_not_found match_response current_user db :
  (∀ m, m ∈ matches db →
        ¬ (Match.requester_id m = MatchResponse.match_id match_response
           ∧ Match.responder_id m = User.id current_user)) →
  run (handle_matching_request match_response current_user) db
  = (Raise (HTTPException 404
              "Match request not found or you are not authorized to respond"),
     db).
Proof.
  intros Hnone. rewrite handle_matching_request_run.
  rewrite (elem_of_nil_inv (filter _ (matches db))); [done|].
  intros m [Hm Hin]%list_elem_of_filter. by apply (Hnone m).
Qed.

Lemma handle_matching_request_not_found_witness :
  run (handle_matching_request (MatchResponse.mk 1 true) user_C) db_requested
  = (Raise (HTTPException 404
              "Match request not found or you are not authorized to respond"),
     db_requested)
  ∧ run (handle_matching_request (MatchResponse.mk 2 true) user_A) db_requested
    = (Raise (HTTPException 404
                "Match request not found or you are not authorized to respond"),
       db_requested).
Proof.
  split.
  - apply (handle_matching_request_not_found (MatchResponse.mk 1 true) user_C
             db_requested).
    intros m Hm. unfold db_requested, matches in Hm.
    apply list_elem_of_singleton in Hm as ->. by intros [_ ?].
  - apply (handle_matching_request_not_found (MatchResponse.mk 2 true) user_A
             db_requested).
    intros m Hm. unfold db_requested, matches in Hm.
    apply list_elem_of_singleton in Hm as ->. by intros [? _].
Defined.

(** X6: in a store with distinct Match ids, an answer of [R] about the
    requester [Q], whatever it returns, changes no Match row other than a
    request from [Q] to [R] and no user row other than those of [Q] and
    [R]. *)
Theorem handle_matching_request_frame match_response current_user db :
  NoDup (Match.id <$> matches db) →
  Forall2 (λ x x',
             ¬ (Match.requester_id x = MatchResponse.match_id match_response
                ∧ Match.responder_id x = User.id current_user) →
             x' = x)
          (matches db)
          (matches (run (handle_matching_request match_response current_user)
                      db).2)
  ∧ Forall2 (λ u u',
               User.id u ≠ MatchResponse.match_id match_response →
               User.id u ≠ User.id current_user →
               u' = u)
            (users db)
            (users (run (handle_matching_request match_response current_user)
                      db).2).
Proof.
  intros Hnodup. rewrite handle_matching_request_run.
  assert (∀ A (R : A → A → Prop) l, (∀ x, R x x) → Forall2 R l l) as Hrefl.
  { intros A R l HR. apply Forall_Forall2_diag, Forall_forall. auto. }
  destruct (filter _ (matches db)) as [|m [|? ?]] eqn:Hone; cbn [snd];
    [split; apply Hrefl; auto| |split; apply Hrefl; auto].
  assert (m ∈ matches db
          ∧ Match.requester_id m = MatchResponse.match_id match_response
          ∧ Match.responder_id m = User.id current_user) as (Hm & HQ & HR).
  { assert (m ∈ [m]) as Hin by (by apply list_elem_of_singleton).
    rewrite <-Hone in Hin. apply list_elem_of_filter in Hin. tauto. }
  assert (∀ st, Forall2 (λ x x',
             ¬ (Match.requester_id x = MatchResponse.match_id match_response
                ∧ Match.responder_id x = User.id current_user) → x' = x)
            (matches db) (update_Match (Match.id m) (Match.set_status st)
                            (matches db))) as Hmatches.
  { intros st. unfold update_Match. apply Forall2_fmap_r.
    apply Forall_Forall2_diag, Forall_forall. intros x Hx Hnot.
    case_bool_decide as Hid; [|done]. destruct Hnot.
    by rewrite (NoDup_Match_ids_inj (matches db) x m Hnodup Hx Hm Hid). }
  destruct (MatchResponse.accept match_response); cbn [users matches];
    (split; [apply Hmatches|]); [|apply Hrefl; auto].
  assert (∀ k us, Forall2 (λ u u', User.id u ≠ k → u' = u) us
                    (update_User k (User.set_matching_status "accept") us))
    as Husers.
  { intros k us. eapply Forall2_impl; [apply update_User_rows|].
    cbn. intros u u' (_ & _ & _ & Hother & _). done. }
  destruct (find_User (Match.requester_id m) (users db)) as [requester|] eqn:Hreq.
  - apply find_User_Some in Hreq as [Hreq _]. rewrite Hreq, HQ.
    eapply Forall2_trans; [|apply Husers|apply Husers].
    cbn. intros u u' u'' H1 H2 HuQ HuR. rewrite H2, H1; [done..|].
    by rewrite H1.
  - eapply Forall2_impl; [apply Husers|]. cbn. auto.
Qed.

Lemma handle_matching_request_frame_witness :
  Forall2 (λ u u', User.id u ≠ 1 → User.id u ≠ 2 → u' = u)
          (users db_requested)
          (users (run (handle_matching_request (MatchResponse.mk 1 true) user_B)
                    db_requested).2).
Proof.
  apply (handle_matching_request_frame (MatchResponse.mk 1 true) user_B
           db_requested).
  cbn. apply NoDup_singleton.
Defined.

(** ** More on [listCandidates] *)

(** X7: a returned shortlist has four users when at least four users pass
    the filter, and as many as pass it otherwise. *)
Theorem get_matching_list_length current_user random db result db' :
  run (get_matching_list current_user random) db = (Return result, db') →
  length result
  = (4 `min` length (filter (λ u, User.matching_status u = "none"
                                  ∧ User.gender u ≠ User.gender current_user
                                  ∧ User.id u ≠ User.id current_user)
                             (users db)))%nat.
Proof.
  intros (_ & _ & ->)%get_matching_list_Return.
  by rewrite length_take, order_by_tier_random_Permutation.
Qed.

Lemma get_matching_list_length_witness :
  length [user_B; user_D; user_C; user_E] = 4%nat
  ∧ length [user_B; user_C] = 2%nat.
Proof.
  split.
  - apply (get_matching_list_length user_A (λ i, Z.of_nat i) db_five
             [user_B; user_D; user_C; user_E] db_five eq_refl).
  - apply (get_matching_list_length user_A (λ i, Z.of_nat i) db_start
             [user_B; user_C] db_start eq_refl).
Defined.

(** X8: when at most four users pass the filter, the shortlist holds all
    of them: it is a rearrangement of the rows that pass. *)
Theorem get_matching_list_all_when_few current_user random db result db' :
  (length (filter (λ u, User.matching_status u = "none"
                        ∧ User.gender u ≠ User.gender current_user
                        ∧ User.id u ≠ User.id current_user)
                  (users db)) ≤ 4)%nat →
  run (get_matching_list current_user random) db = (Return result, db') →
  result ≡ₚ filter (λ u, User.matching_status u = "none"
                         ∧ User.gender u ≠ User.gender current_user
                         ∧ User.id u ≠ User.id current_user)
                   (users db).
Proof.
  intros Hfew (_ & _ & ->)%get_matching_list_Return.
  rewrite take_ge; [apply order_by_tier_random_Permutation|].
  by rewrite order_by_tier_random_Permutation.
Qed.

Lemma get_matching_list_all_when_few_witness :
  [user_D; user_B; user_E; user_C] ≡ₚ [user_C; user_B; user_E; user_D].
Proof.
  apply (get_matching_list_all_when_few user_A (λ i, - Z.of_nat i) db_five
           [user_D; user_B; user_E; user_C] db_five);
    [vm_compute; lia|reflexivity].
Defined.



(** X10: when the ids of the user table are distinct, no user is proposed
    twice: the ids of a returned shortlist are distinct. *)
Theorem get_matching_list_distinct current_user random db result db' :
  NoDup (User.id <$> users db) →
  run (get_matching_list current_user random) db = (Return result, db') →
  NoDup (User.id <$> result).
Proof.
  intros Hnodup (_ & _ & ->)%get_matching_list_Return.
  eapply sublist_NoDup; [|apply fmap_sublist, sublist_take].
  rewrite order_by_tier_random_Permutation.
  eapply sublist_NoDup; [exact Hnodup|apply fmap_sublist, sublist_filter].
Qed.

Lemma get_matching_list_distinct_witness :
  NoDup (User.id <$> [user_B; user_D; user_C; user_E]).
Proof.
  apply (get_matching_list_distinct user_A (λ i, Z.of_nat i) db_five
           [user_B; user_D; user_C; user_E] db_five); [|reflexivity].
  cbn. repeat (apply NoDup_cons; split;
               [rewrite ?elem_of_cons, elem_of_nil; lia|]).
  apply NoDup_nil_2.
Defined.

(** ** The compatibility table *)

(** X11: whatever the code looked up, known or not, a type found in its
    compatibility set is never the code itself, and both the code and the
    type found are among the sixteen keys of the table; so a candidate of
    the requesting user's own type is never ranked as compatible, and a
    requesting user of an unknown type has no compatible candidate. *)
Theorem mbti_compatibility_closed code c :
  c ∈ dict_get mbti_compatibility code [] →
  c ≠ code
  ∧ code ∈ mbti_compatibility.*1
  ∧ c ∈ mbti_compatibility.*1.
Proof.
  unfold dict_get, mbti_compatibility. cbn [List.find fst snd].
  repeat (case_bool_decide;
          [subst code; cbn [snd]; intros Hc;
           repeat (apply elem_of_cons in Hc as [-> | Hc];
                   [split; [done|];
                    split; refine (bool_decide_unpack _ _); vm_compute; exact I|]);
           by apply elem_of_nil in Hc|]).
  intros Hc. by apply elem_of_nil in Hc.
Qed.

Lemma mbti_compatibility_closed_witness :
  "ENFJ" ≠ "INFP"
  ∧ "INFP" ∈ mbti_compatibility.*1
  ∧ "ENFJ" ∈ mbti_compatibility.*1.
Proof.
  apply (mbti_compatibility_closed "INFP" "ENFJ").
  change ("ENFJ" ∈ ["ENFJ"; "ENTJ"]). apply elem_of_cons. by left.
Defined.

(** ** How the operations compose *)

(** A lookup by primary key follows the evolution of the table. *)
Lemma find_User_evolves pk us us' u :
  Forall2 User_evolves us us' →
  find_User pk us = Some u →
  ∃ u', find_User pk us' = Some u' ∧ User_evolves u u'.
Proof.
  unfold find_User. induction 1 as [|v v' us us' Hv _ IH]; [done|]. cbn.
  destruct Hv as (Hid & Hrest). rewrite Hid.
  case_bool_decide; [|exact IH].
  intros [= <-]. exists v'. by split.
Qed.

(** What a successful request for a match tells. *)
Lemma send_matching_request_Return match_request current_user now db s db' :
  run (send_matching_request match_request current_user now) db
  = (Return s, db') →
  (User.matching_status current_user ∉ ["waiting"; "accept"])
  ∧ is_Some (find_User (MatchRequest.partner_id match_request) (users db))
  ∧ db' = mkDB (update_User (User.id current_user)
                  (User.set_matching_status "waiting") (users db))
               (matches db
                ++ [Match.mk (next_Match_id (matches db)) (User.id current_user)
                      (MatchRequest.partner_id match_request) "waiting" now])%list.
Proof.
  destruct (decide (User.matching_status current_user ∈ ["waiting"; "accept"]))
    as [Hst|Hst].
  { unfold run, send_matching_request. by rewrite bool_decide_eq_true_2. }
  destruct (find_User (MatchRequest.partner_id match_request) (users db))
    as [partner|] eqn:Hpartner.
  - erewrite send_matching_request_run by done. intros [= _ <-]. eauto.
  - unfold run, send_matching_request.
    rewrite bool_decide_eq_false_2 by done.
    unfold mbind, Session_bind, db_get_User. cbn. by rewrite Hpartner.
Qed.

(** X12: the gate never reopens.  Once the stored row of a user has
    status [waiting] or [accept], then after any sequence of requests the
    user is still stored with status [waiting] or [accept], and every
    request for a match that the user sends, to anyone, is refused with
    the 400 error and changes nothing. *)
Theorem requester_stays_gated U db requests :
  find_User (User.id U) (users db) = Some U →
  User.matching_status U ∈ ["waiting"; "accept"] →
  ∃ U',
    find_User (User.id U) (users (serve_all db requests)) = Some U'
    ∧ User.matching_status U' ∈ ["waiting"; "accept"]
    ∧ ∀ match_request now,
        run (send_matching_request match_request U' now)
            (serve_all db requests)
        = (Raise (HTTPException 400
                    "You already have a pending or accepted match"),
           serve_all db requests).
Proof.
  intros HU Hst.
  destruct (find_User_evolves _ _ _ _ (serve_all_evolves db requests) HU)
    as (U' & HU' & _ & _ & _ & Hevolve).
  assert (User.matching_status U' ∈ ["waiting"; "accept"]) as Hst'.
  { destruct Hevolve as [->|[->| ->]]; [done|rewrite !elem_of_cons; auto..]. }
  exists U'. split_and!; [done..|]. intros match_request now.
  unfold run, send_matching_request. by rewrite bool_decide_eq_true_2.
Qed.

Lemma requester_stays_gated_witness :
  ∃ U',
    find_User 1
      (users (serve_all db_requested
                [POST_matching_accept (MatchResponse.mk 1 false) user_B;
                 GET_matching_list user_C (λ _, 0)])) = Some U'
    ∧ User.matching_status U' ∈ ["waiting"; "accept"].
Proof.
  destruct (requester_stays_gated (User.set_matching_status "waiting" user_A)
              db_requested
              [POST_matching_accept (MatchResponse.mk 1 false) user_B;
               GET_matching_list user_C (λ _, 0)])
    as (U' & HU' & Hst & _).
  - reflexivity.
  - cbn. rewrite !elem_of_cons. auto.
  - by exists U'.
Defined.

(** X13: a user gets one request.  After a stored user's request for a
    match has succeeded, whatever requests are served next (the partner
    rejecting it included), every further request for a match by that user
    is refused with the 400 error and changes nothing. *)
Theorem send_matching_request_only_once match_request U now db s db1 requests :
  find_User (User.id U) (users db) = Some U →
  run (send_matching_request match_request U now) db = (Return s, db1) →
  ∃ U',
    find_User (User.id U) (users (serve_all db1 requests)) = Some U'
    ∧ ∀ match_request' now',
        run (send_matching_request match_request' U' now')
            (serve_all db1 requests)
        = (Raise (HTTPException 400
                    "You already have a pending or accepted match"),
           serve_all db1 requests).
Proof.
  intros HU (_ & _ & ->)%send_matching_request_Return.
  assert (find_User (User.id U)
            (update_User (User.id U) (User.set_matching_status "waiting")
               (users db))
          = Some (User.set_matching_status "waiting" U)) as HU1.
  { rewrite find_User_update by apply set_matching_status_id.
    by rewrite bool_decide_eq_true_2, HU. }
  match goal with |- context [serve_all ?d _] => set (db1 := d) end.
  destruct (find_User_evolves _ _ _ _ (serve_all_evolves db1 requests) HU1)
    as (U' & HU' & _ & _ & _ & Hevolve).
  exists U'. split; [done|]. intros match_request' now'.
  unfold run, send_matching_request. rewrite bool_decide_eq_true_2; [done|].
  cbn in Hevolve. rewrite !elem_of_cons. tauto.
Qed.

Lemma send_matching_request_only_once_witness :
  ∃ U',
    find_User 1
      (users (serve_all db_requested
                [POST_matching_accept (MatchResponse.mk 1 false) user_B]))
    = Some U'
    ∧ run (send_matching_request (MatchRequest.mk 3) U' 300)
          (serve_all db_requested
             [POST_matching_accept (MatchResponse.mk 1 false) user_B])
      = (Raise (HTTPException 400
                  "You already have a pending or accepted match"),
         serve_all db_requested
           [POST_matching_accept (MatchResponse.mk 1 false) user_B]).
Proof.
  destruct (send_matching_request_only_once (MatchRequest.mk 2) user_A 100
              db_start "Match request sent successfully" db_requested
              [POST_matching_accept (MatchResponse.mk 1 false) user_B])
    as (U' & HU' & Hrefused); [reflexivity..|].
  exists U'. split; [exact HU'|apply Hrefused].
Defined.

(** X14: a user who is waiting or accepted is never proposed again.  When
    no row of the user table with the id [k] has status [none], then after
    any sequence of requests no shortlist returned to anyone contains a
    user with the id [k]. *)
Theorem gated_user_never_proposed k db requests current_user random result db' :
  (∀ u, u ∈ users db → User.id u = k → User.matching_status u ≠ "none") →
  run (get_matching_list current_user random) (serve_all db requests)
  = (Return result, db') →
  ∀ u, u ∈ result → User.id u ≠ k.
Proof.
  intros Hgated (_ & _ & ->)%get_matching_list_Return u Hu Hk.
  apply elem_of_take in Hu as (i & Hi%list_elem_of_lookup_2 & _).
  rewrite order_by_tier_random_Permutation in Hi.
  apply list_elem_of_filter in Hi as [(Hnone & _ & _) Hin].
  apply list_elem_of_lookup in Hin as (j & Hj).
  destruct (Forall2_lookup_r _ _ _ _ _ (serve_all_evolves db requests) Hj)
    as (u0 & Hu0 & Hid & _ & _ & Hst).
  apply (Hgated u0); [by eapply list_elem_of_lookup_2|congruence|].
  destruct Hst as [Hst|[Hst|Hst]]; congruence.
Qed.

Lemma gated_user_never_proposed_witness :
  run (get_matching_list user_A (λ _, 0))
      (serve_all db_B_waiting
         [POST_matching_accept (MatchResponse.mk 2 false) user_A])
  = (Return [user_C],
     serve_all db_B_waiting
       [POST_matching_accept (MatchResponse.mk 2 false) user_A])
  ∧ User.id user_C ≠ 2.
Proof.
  split; [reflexivity|].
  apply (gated_user_never_proposed 2 db_B_waiting
           [POST_matching_accept (MatchResponse.mk 2 false) user_A]
           user_A (λ _, 0) [user_C]
           (serve_all db_B_waiting
              [POST_matching_accept (MatchResponse.mk 2 false) user_A])).
  - intros u Hu. unfold db_B_waiting, users in Hu.
    repeat (apply elem_of_cons in Hu as [-> | Hu]; [done|]).
    by apply elem_of_nil in Hu.
  - reflexivity.
  - by apply list_elem_of_singleton.
Defined.

(** A row newer than all the others comes first among the selected rows
    when it is selected. *)
Lemma order_by_created_at_desc_newest (P : Match.t → Prop)
    `{∀ m, Decision (P m)} (ms : list Match.t) new :
  (∀ m, m ∈ ms → Match.created_at m < Match.created_at new) →
  P new →
  head (order_by_created_at_desc (filter P (ms ++ [new])%list)) = Some new.
Proof.
  intros Holder Hnew.
  assert (new ∈ filter P (ms ++ [new])%list) as Hin.
  { apply list_elem_of_filter. split; [done|]. apply elem_of_app. right.
    by apply list_elem_of_singleton. }
  pose proof (order_by_created_at_desc_head (filter P (ms ++ [new])%list)) as Hhead.
  destruct (head _) as [m|].
  - destruct Hhead as [[_ Hm]%list_elem_of_filter Hmax].
    apply elem_of_app in Hm as [Hm|Hm%list_elem_of_singleton]; [|by subst].
    specialize (Holder m Hm). specialize (Hmax new Hin). lia.
  - rewrite Hhead in Hin. by apply elem_of_nil in Hin.
Qed.

(** X15: after a request for a match that is newer than every stored
    Match, each of the two users finds the other: the partner lookup of
    the requester returns the stored row of the partner, and the partner
    lookup of the partner returns the stored row of the requester. *)
Theorem send_then_get_matching_partner U P now db s db1 :
  find_User (User.id U) (users db) = Some U →
  find_User (User.id P) (users db) = Some P →
  created_before now db →
  run (send_matching_request (MatchRequest.mk (User.id P)) U now) db
  = (Return s, db1) →
  ∃ U1 P1,
    find_User (User.id U) (users db1) = Some U1
    ∧ find_User (User.id P) (users db1) = Some P1
    ∧ run (get_matching_partner U) db1 = (Return P1, db1)
    ∧ run (get_matching_partner P) db1 = (Return U1, db1).
Proof.
  intros HU HP Hbefore (_ & _ & ->)%send_matching_request_Return.
  cbn [MatchRequest.partner_id].
  assert (find_User (User.id U)
            (update_User (User.id U) (User.set_matching_status "waiting")
               (users db))
          = Some (User.set_matching_status "waiting" U)) as HU1.
  { rewrite find_User_update by apply set_matching_status_id.
    by rewrite bool_decide_eq_true_2, HU. }
  assert (∃ P1, find_User (User.id P)
                  (update_User (User.id U) (User.set_matching_status "waiting")
                     (users db)) = Some P1) as [P1 HP1].
  { rewrite find_User_update by apply set_matching_status_id.
    rewrite HP. eauto. }
  exists (User.set_matching_status "waiting" U), P1.
  split_and!; [done|done| |]; rewrite get_matching_partner_run; cbn [matches users].
  - rewrite order_by_created_at_desc_newest.
    + cbn [Match.requester_id Match.responder_id].
      rewrite bool_decide_eq_true_2 by done. by rewrite HP1.
    + intros m Hm. cbn. by apply Hbefore.
    + cbn. rewrite !elem_of_cons. auto.
  - rewrite order_by_created_at_desc_newest.
    + cbn [Match.requester_id Match.responder_id].
      case_bool_decide as Hsame; [rewrite <-Hsame|]; by rewrite HU1.
    + intros m Hm. cbn. by apply Hbefore.
    + cbn. rewrite !elem_of_cons. auto.
Qed.

Lemma send_then_get_matching_partner_witness :
  ∃ U1 P1,
    find_User 1 (users db_requested) = Some U1
    ∧ find_User 2 (users db_requested) = Some P1
    ∧ run (get_matching_partner user_A) db_requested = (Return P1, db_requested)
    ∧ run (get_matching_partner user_B) db_requested = (Return U1, db_requested).
Proof.
  apply (send_then_get_matching_partner user_A user_B 100 db_start
           "Match request sent successfully" db_requested);
    [reflexivity|reflexivity| |reflexivity].
  intros m Hm. by apply elem_of_nil in Hm.
Defined.

Lemma update_Match_fresh k f ms :
  (∀ m, m ∈ ms → Match.id m ≠ k) → update_Match k f ms = ms.
Proof.
  intros Hfresh. unfold update_Match. rewrite <-(list_fmap_id ms) at 2.
  apply list_fmap_ext. intros i m Hm%list_elem_of_lookup_2.
  by rewrite bool_decide_eq_false_2 by by apply Hfresh.
Qed.

(** X16: a request can be answered.  When no Match from [U] to [P] is
    stored, then after a successful request of [U] to [P] an answer of [P]
    about [U] succeeds, accepting or rejecting, and the Match table becomes
    the one from before the request followed by the new Match with the
    decision as its status. *)
Theorem send_then_handle_matching_request U P now db s db1 accept :
  (∀ m, m ∈ matches db →
        ¬ (Match.requester_id m = User.id U
           ∧ Match.responder_id m = User.id P)) →
  run (send_matching_request (MatchRequest.mk (User.id P)) U now) db
  = (Return s, db1) →
  ∃ db2,
    run (handle_matching_request (MatchResponse.mk (User.id U) accept) P) db1
    = (Return "Match request handled successfully", db2)
    ∧ matches db2
      = (matches db
         ++ [Match.mk (next_Match_id (matches db)) (User.id U) (User.id P)
               (if accept then "accept" else "reject") now])%list.
Proof.
  intros Hnone (_ & _ & ->)%send_matching_request_Return.
  cbn [MatchRequest.partner_id].
  rewrite handle_matching_request_run.
  cbn [matches users MatchResponse.match_id MatchResponse.accept].
  rewrite filter_app, filter_cons_True, filter_nil by done.
  rewrite (elem_of_nil_inv (filter _ (matches db))).
  2:{ intros m [Hm Hin]%list_elem_of_filter. by apply (Hnone m). }
  cbn [app Match.id Match.requester_id].
  assert (∀ st,
            update_Match (next_Match_id (matches db)) (Match.set_status st)
              (matches db
               ++ [Match.mk (next_Match_id (matches db)) (User.id U)
                     (User.id P) "waiting" now])%list
            = (matches db
               ++ [Match.mk (next_Match_id (matches db)) (User.id U)
                     (User.id P) st now])%list) as Hupdate.
  { intros st. unfold update_Match at 1. rewrite fmap_app.
    fold (update_Match (next_Match_id (matches db)) (Match.set_status st)
            (matches db)).
    rewrite update_Match_fresh.
    - cbn. by rewrite bool_decide_eq_true_2.
    - intros m Hm%next_Match_id_fresh. lia. }
  destruct accept; eexists; (split; [reflexivity|]); cbn [matches];
    apply Hupdate.
Qed.

Lemma send_then_handle_matching_request_witness :
  ∃ db2,
    run (handle_matching_request (MatchResponse.mk 1 true) user_B) db_requested
    = (Return "Match request handled successfully", db2)
    ∧ matches db2 = [Match.mk 1 1 2 "accept" 100].
Proof.
  apply (send_then_handle_matching_request user_A user_B 100 db_start
           "Match request sent successfully" db_requested true);
    [|reflexivity].
  intros m Hm. by apply elem_of_nil in Hm.
Defined.

(** ** Repeating an answer *)

Lemma filter_update_Match (P : Match.t → Prop) `{∀ m, Decision (P m)} k st ms :
  (∀ m, P (Match.set_status st m) ↔ P m) →
  filter P (update_Match k (Match.set_status st) ms)
  = update_Match k (Match.set_status st) (filter P ms).
Proof.
  intros HP. unfold update_Match. induction ms as [|m ms IH]; [done|].
  cbn [fmap list_fmap].
  change (list_fmap Match.t Match.t ?g ms) with (g <$> ms).
  destruct (decide (P m)) as [Hm|Hm].
  - rewrite (filter_cons_True P m) by done. cbn [fmap list_fmap].
    change (list_fmap Match.t Match.t ?g (filter P ms)) with (g <$> filter P ms).
    rewrite filter_cons_True; [by rewrite IH|].
    case_bool_decide; [by apply HP|done].
  - rewrite (filter_cons_False P m) by done.
    rewrite filter_cons_False; [done|].
    case_bool_decide; [by rewrite HP|done].
Qed.

Lemma update_Match_twice k st ms :
  update_Match k (Match.set_status st) (update_Match k (Match.set_status st) ms)
  = update_Match k (Match.set_status st) ms.
Proof.
  unfold update_Match. rewrite <-list_fmap_compose. apply list_fmap_ext.
  intros i m _. cbn. destruct (decide (Match.id m = k)) as [Hk|Hk].
  - rewrite (bool_decide_eq_true_2 (Match.id m = k)) by done. cbn.
    by rewrite bool_decide_eq_true_2.
  - rewrite (bool_decide_eq_false_2 (Match.id m = k)) by done.
    by rewrite bool_decide_eq_false_2.
Qed.

Lemma update_User_absorb a b st us :
  update_User a (User.set_matching_status st)
    (update_User b (User.set_matching_status st)
       (update_User a (User.set_matching_status st)
          (update_User b (User.set_matching_status st) us)))
  = update_User a (User.set_matching_status st)
      (update_User b (User.set_matching_status st) us).
Proof.
  unfold update_User. rewrite <-!list_fmap_compose. apply list_fmap_ext.
  intros i u _. cbn.
  destruct (decide (User.id u = a)) as [Ha|Ha];
    destruct (decide (User.id u = b)) as [Hb|Hb];
    repeat first
      [ rewrite (bool_decide_eq_true_2 (User.id u = a)) by done
      | rewrite (bool_decide_eq_false_2 (User.id u = a)) by done
      | rewrite (bool_decide_eq_true_2 (User.id u = b)) by done
      | rewrite (bool_decide_eq_false_2 (User.id u = b)) by done
      | progress cbn [User.id User.set_matching_status User.mbti User.gender] ];
    reflexivity.
Qed.

Lemma update_User_twice a st us :
  update_User a (User.set_matching_status st)
    (update_User a (User.set_matching_status st) us)
  = update_User a (User.set_matching_status st) us.
Proof.
  unfold update_User. rewrite <-list_fmap_compose. apply list_fmap_ext.
  intros i u _. cbn. destruct (decide (User.id u = a)) as [Hk|Hk].
  - rewrite (bool_decide_eq_true_2 (User.id u = a)) by done. cbn.
    by rewrite bool_decide_eq_true_2.
  - rewrite (bool_decide_eq_false_2 (User.id u = a)) by done.
    by rewrite bool_decide_eq_false_2.
Qed.

(** X17: an answer can be sent again.  When an answer has succeeded, the
    same answer by the same user on the resulting store succeeds again and
    leaves that store exactly as it is. *)
Theorem handle_matching_request_idempotent match_response current_user db s db1 :
  run (handle_matching_request match_response current_user) db
  = (Return s, db1) →
  run (handle_matching_request match_response current_user) db1
  = (Return s, db1).
Proof.
  rewrite handle_matching_request_run.
  destruct (filter _ (matches db)) as [|m [|? ?]] eqn:Hone; [done| |done].
  intros [= <- <-]. rewrite handle_matching_request_run.
  assert (∀ st us,
            filter (λ m, Match.requester_id m
                         = MatchResponse.match_id match_response
                         ∧ Match.responder_id m = User.id current_user)
                   (matches (mkDB us (update_Match (Match.id m)
                                        (Match.set_status st) (matches db))))
            = [Match.set_status st m]) as Hagain.
  { intros st us. cbn [matches]. rewrite filter_update_Match by done.
    rewrite Hone. cbn. by rewrite bool_decide_eq_true_2. }
  destruct (MatchResponse.accept match_response).
  - rewrite Hagain. cbn [users matches Match.id Match.requester_id Match.set_status].
    rewrite update_Match_twice. do 2 f_equal.
    destruct (find_User (Match.requester_id m) (users db)) as [requester|] eqn:Hreq.
    + apply find_User_Some in Hreq as Hid. destruct Hid as [Hid _].
      rewrite !find_User_update by apply set_matching_status_id.
      rewrite Hid, (bool_decide_eq_true_2 (Match.requester_id m
                                           = Match.requester_id m)) by done.
      rewrite Hreq. cbn [fmap option_fmap option_map].
      case_bool_decide; unfold id; cbn [User.id User.set_matching_status];
        rewrite Hid; apply update_User_absorb.
    + rewrite find_User_update by apply set_matching_status_id.
      rewrite Hreq. cbn. apply update_User_twice.
  - rewrite Hagain. cbn [users matches Match.id Match.set_status].
    by rewrite update_Match_twice.
Qed.

Lemma handle_matching_request_idempotent_witness :
  run (handle_matching_request (MatchResponse.mk 1 true) user_B)
      (mkDB [User.set_matching_status "accept" user_A;
             User.set_matching_status "accept" user_B; user_C]
            [Match.mk 1 1 2 "accept" 100])
  = (Return "Match request handled successfully",
     mkDB [User.set_matching_status "accept" user_A;
           User.set_matching_status "accept" user_B; user_C]
          [Match.mk 1 1 2 "accept" 100]).
Proof.
  apply (handle_matching_request_idempotent (MatchResponse.mk 1 true) user_B
           db_requested).
  reflexivity.
Defined.

(** ** More on [getActivePartner] *)

(** X18: in a store where no Match has the same user as requester and
    responder, the partner lookup never returns the user who asks: the
    user returned is a stored user with another id, and some stored Match
    has the two of them as its parties. *)
Theorem get_matching_partner_is_other current_user db partner db' :
  (∀ m, m ∈ matches db → Match.requester_id m ≠ Match.responder_id m) →
  run (get_matching_partner current_user) db = (Return partner, db') →
  partner ∈ users db
  ∧ User.id partner ≠ User.id current_user
  ∧ ∃ m, m ∈ matches db
         ∧ (Match.requester_id m = User.id current_user
            ∧ Match.responder_id m = User.id partner
            ∨ Match.requester_id m = User.id partner
              ∧ Match.responder_id m = User.id current_user).
Proof.
  intros Hdistinct. rewrite get_matching_partner_run.
  pose proof (order_by_created_at_desc_head
                (filter (λ m, (Match.requester_id m = User.id current_user
                               ∨ Match.responder_id m = User.id current_user)
                              ∧ Match.status m ∈ ["waiting"; "accept"; "reject"])
                        (matches db))) as Hhead.
  destruct (head _) as [m|]; [|done].
  destruct Hhead as [[[Hparty _] Hm]%list_elem_of_filter _].
  destruct (find_User _ (users db)) as [p|] eqn:Hp; [|done].
  intros [= -> <-]. apply find_User_Some in Hp as [Hid Hin].
  specialize (Hdistinct m Hm). split; [done|].
  case_bool_decide as Hreq.
  - split; [congruence|]. exists m. split; [done|]. left. by rewrite Hid.
  - destruct Hparty as [?|Hresp]; [done|].
    split; [congruence|]. exists m. split; [done|]. right. by rewrite Hid.
Qed.

Lemma get_matching_partner_is_other_witness :
  User.set_matching_status "waiting" user_A ∈ users db_requested
  ∧ User.id (User.set_matching_status "waiting" user_A) ≠ User.id user_B.
Proof.
  destruct (get_matching_partner_is_other user_B db_requested
              (User.set_matching_status "waiting" user_A) db_requested)
    as (Hin & Hne & _).
  - intros m Hm. unfold db_requested, matches in Hm.
    by apply list_elem_of_singleton in Hm as ->.
  - reflexivity.
  - by split.
Defined.
